(** * Luna desktop app: the resizable split view

    A shallow embedding of the two [ResizableSplitView] components of the
    repository and the properties of their drag, collapse and reset logic.

    - [Tsx]: the TypeScript component, [ResizableSplitView.tsx], which the
      TypeScript [App] imports from [./components/ResizableSplitView] (its
      text follows the timeline panel and the video player in
      [desktop_app/src/ui/components/CompactTimelinePanel.tsx], lines
      451-675); it keeps the pointer position and the ratio of the drag
      start and has pixel/fraction bounds, reset and collapse.
    - [Jsx]: [desktop_app/src/components/layout/ResizableSplitView.jsx], the
      component imported by [App.jsx]; it places the divider under the
      pointer and clamps to the constants 0.2 and 0.8.

    JavaScript numbers are IEEE 754 binary64 values.  They are modelled by
    the Standard Library's executable specification of floating-point
    arithmetic ([spec_float] at precision 53 and maximal exponent 1024), so
    rounding, infinities, NaN and division by zero behave as in the
    browser. *)

From Stdlib Require Import ZArith Bool List Ascii String Lia.
From Stdlib Require Import Floats.SpecFloat.
Import ListNotations.

(* ================================================================== *)
(** ** JavaScript numbers *)

Module JsNumber.

Definition prec : Z := 53.
Definition emax : Z := 1024.

Definition num : Type := spec_float.

Definition nan : num := S754_nan.
Definition Infinity : num := S754_infinity false.

(** An integer literal. *)
Definition of_Z (z : Z) : num := binary_normalize prec emax z 0 false.

Definition add : num -> num -> num := SFadd prec emax.
Definition sub : num -> num -> num := SFsub prec emax.
Definition div : num -> num -> num := SFdiv prec emax.
Definition mul : num -> num -> num := SFmul prec emax.

(** The decimal literal [n/d]: both are the correctly rounded value of the
    same rational, so [dec 2 100] is the double written [0.02]. *)
Definition dec (n d : Z) : num := div (of_Z n) (of_Z d).

(** [x <= y], [x === y] and [Number.isNaN]. *)
Definition leb (x y : num) : bool := SFleb x y.
Definition strict_eq (x y : num) : bool := SFeqb x y.

Definition ltb (x y : num) : bool := SFltb x y.

Definition isNaN (x : num) : bool :=
  match x with S754_nan => true | _ => false end.

(** [Number.isFinite]. *)
Definition isFinite (x : num) : bool :=
  match x with S754_zero _ | S754_finite _ _ _ => true | _ => false end.

(** Finite and different from both zeros. *)
Definition isNonZeroFinite (x : num) : bool :=
  match x with S754_finite _ _ _ => true | _ => false end.

(** [Math.max] and [Math.min] of two arguments: NaN if either is NaN,
    and [+0] counts as larger than [-0]. *)
Definition Math_max (a b : num) : num :=
  match SFcompare a b with
  | None => nan
  | Some Lt => b
  | Some Gt => a
  | Some Eq => match a with S754_zero true => b | _ => a end
  end.

Definition Math_min (a b : num) : num :=
  match SFcompare a b with
  | None => nan
  | Some Lt => a
  | Some Gt => b
  | Some Eq => match a with S754_zero false => b | _ => a end
  end.

Definition num_le (x y : num) : Prop := leb x y = true.
Definition num_lt (x y : num) : Prop := ltb x y = true.
Definition num_eq (x y : num) : Prop := strict_eq x y = true.

(** [x] lies in the closed interval [[lo, hi]]. *)
Definition within (lo hi x : num) : Prop := num_le lo x /\ num_le x hi.

Declare Scope js_scope.
Delimit Scope js_scope with js.
Bind Scope js_scope with num.
Infix "+" := add : js_scope.
Infix "-" := sub : js_scope.
Infix "/" := div : js_scope.
Infix "*" := mul : js_scope.
Infix "<=?" := leb : js_scope.
Infix "===" := strict_eq (at level 70, no associativity) : js_scope.

(** The literals of the two components. *)
Definition lit_0 : num := Eval vm_compute in of_Z 0.
Definition lit_1 : num := Eval vm_compute in of_Z 1.
Definition lit_300 : num := Eval vm_compute in of_Z 300.
Definition lit_0_02 : num := Eval vm_compute in dec 2 100.
Definition lit_0_2 : num := Eval vm_compute in dec 2 10.
Definition lit_0_5 : num := Eval vm_compute in dec 5 10.
Definition lit_0_8 : num := Eval vm_compute in dec 8 10.
Definition lit_0_98 : num := Eval vm_compute in dec 98 100.
Definition lit_2 : num := Eval vm_compute in of_Z 2.
Definition lit_60 : num := Eval vm_compute in of_Z 60.
Definition lit_100 : num := Eval vm_compute in of_Z 100.
Definition lit_0_1 : num := Eval vm_compute in dec 1 10.
Definition lit_1_5 : num := Eval vm_compute in dec 15 10.
Definition lit_50 : num := Eval vm_compute in of_Z 50.
Definition lit_98 : num := Eval vm_compute in of_Z 98.

(** [ToBoolean] of a number: [0], [-0] and NaN are falsy. *)
Definition truthyNumber (x : num) : bool :=
  match x with
  | S754_zero _ | S754_nan => false
  | _ => true
  end.

(** [x || y] on numbers. *)
Definition orElse (x y : num) : num := if truthyNumber x then x else y.

End JsNumber.

(* ================================================================== *)
(** ** The DOM and the handlers' outcomes *)

Module Dom.
Import JsNumber.

(** The fields of the result of [getBoundingClientRect()] that the
    components read: [rect.left] and [rect.width]. *)
Record DOMRect : Type := { rect_left : num; rect_width : num }.

(** The field of a mouse event that the components read. *)
Record MouseEvent : Type := { clientX : num }.

(** How a handler ends: it returns, or a JavaScript exception escapes. *)
Inductive Completion (A : Type) : Type :=
| Normal (a : A)
| Throw (error : string).

Arguments Normal {A} a.
Arguments Throw {A} error.

Definition bind {A B : Type} (c : Completion A) (k : A -> Completion B) : Completion B :=
  match c with
  | Normal a => k a
  | Throw err => Throw err
  end.

Notation "x <- c ;; k" := (bind c (fun x => k))
  (at level 61, c at next level, right associativity).

(** [ref.current.getBoundingClientRect()]: reading a property of [null]
    raises a [TypeError]. *)
Definition getBoundingClientRect (current : option DOMRect) : Completion DOMRect :=
  match current with
  | Some rect => Normal rect
  | None => Throw "TypeError"
  end.

(** JavaScript truthiness of an object reference. *)
Definition truthy {A : Type} (current : option A) : bool :=
  match current with Some _ => true | None => false end.

End Dom.

(* ================================================================== *)
(** ** [ResizableSplitView.tsx]

    Handlers: [handleMouseDown] (lines 490-498 of
    [ui/components/CompactTimelinePanel.tsx]), [handleMouseMove] (500-521),
    [handleMouseUp] (523-527), the [useEffect] (529-538), [resetSplit]
    (540-543), [toggleLeftPanel] (545-553), [toggleRightPanel] (555-563). *)

Module Tsx.
Import JsNumber Dom.
Local Open Scope js_scope.

(** The props that the logic reads.  [onSplitRatioChange] records whether
    the parent passed a callback. *)
Record Props : Type := {
  initialSplitRatio : num;
  minLeftWidth : num;
  minRightWidth : num;
  maxLeftWidth : num;
  maxRightWidth : num;
  onSplitRatioChange : bool
}.

(** The defaults of the destructured parameter list. *)
Definition defaultProps (callback : bool) : Props :=
  {| initialSplitRatio := lit_0_5;
     minLeftWidth := lit_300;
     minRightWidth := lit_300;
     maxLeftWidth := lit_0_8;
     maxRightWidth := lit_0_8;
     onSplitRatioChange := callback |}.

(** One mounted instance and what it touches: the four [useState] cells,
    the three [useRef] cells ([containerRef.current] holds the rectangle
    the container has now, [None] while it is [null]), the two styles of
    [document.body], and the arguments of the calls made to the parent's
    callback, oldest first. *)
Record World : Type := {
  splitRatio : num;
  isDragging : bool;
  isLeftCollapsed : bool;
  isRightCollapsed : bool;
  containerRef : option DOMRect;
  dragStartX : num;
  dragStartRatio : num;
  bodyCursor : string;
  bodyUserSelect : string;
  reported : list num
}.

Definition setSplitRatio (v : num) (w : World) : World :=
  {| splitRatio := v; isDragging := isDragging w;
     isLeftCollapsed := isLeftCollapsed w; isRightCollapsed := isRightCollapsed w;
     containerRef := containerRef w;
     dragStartX := dragStartX w; dragStartRatio := dragStartRatio w;
     bodyCursor := bodyCursor w; bodyUserSelect := bodyUserSelect w;
     reported := reported w |}.

Definition setIsDragging (b : bool) (w : World) : World :=
  {| splitRatio := splitRatio w; isDragging := b;
     isLeftCollapsed := isLeftCollapsed w; isRightCollapsed := isRightCollapsed w;
     containerRef := containerRef w;
     dragStartX := dragStartX w; dragStartRatio := dragStartRatio w;
     bodyCursor := bodyCursor w; bodyUserSelect := bodyUserSelect w;
     reported := reported w |}.

Definition setIsLeftCollapsed (b : bool) (w : World) : World :=
  {| splitRatio := splitRatio w; isDragging := isDragging w;
     isLeftCollapsed := b; isRightCollapsed := isRightCollapsed w;
     containerRef := containerRef w;
     dragStartX := dragStartX w; dragStartRatio := dragStartRatio w;
     bodyCursor := bodyCursor w; bodyUserSelect := bodyUserSelect w;
     reported := reported w |}.

Definition setIsRightCollapsed (b : bool) (w : World) : World :=
  {| splitRatio := splitRatio w; isDragging := isDragging w;
     isLeftCollapsed := isLeftCollapsed w; isRightCollapsed := b;
     containerRef := containerRef w;
     dragStartX := dragStartX w; dragStartRatio := dragStartRatio w;
     bodyCursor := bodyCursor w; bodyUserSelect := bodyUserSelect w;
     reported := reported w |}.

(** [dragStartX.current = x; dragStartRatio.current = r]. *)
Definition setDragStart (x r : num) (w : World) : World :=
  {| splitRatio := splitRatio w; isDragging := isDragging w;
     isLeftCollapsed := isLeftCollapsed w; isRightCollapsed := isRightCollapsed w;
     containerRef := containerRef w;
     dragStartX := x; dragStartRatio := r;
     bodyCursor := bodyCursor w; bodyUserSelect := bodyUserSelect w;
     reported := reported w |}.

(** [document.body.style.cursor = c; document.body.style.userSelect = u]. *)
Definition setBodyStyle (c u : string) (w : World) : World :=
  {| splitRatio := splitRatio w; isDragging := isDragging w;
     isLeftCollapsed := isLeftCollapsed w; isRightCollapsed := isRightCollapsed w;
     containerRef := containerRef w;
     dragStartX := dragStartX w; dragStartRatio := dragStartRatio w;
     bodyCursor := c; bodyUserSelect := u;
     reported := reported w |}.

(** The browser lays the container out: mount, resize or unmount. *)
Definition setContainer (c : option DOMRect) (w : World) : World :=
  {| splitRatio := splitRatio w; isDragging := isDragging w;
     isLeftCollapsed := isLeftCollapsed w; isRightCollapsed := isRightCollapsed w;
     containerRef := c;
     dragStartX := dragStartX w; dragStartRatio := dragStartRatio w;
     bodyCursor := bodyCursor w; bodyUserSelect := bodyUserSelect w;
     reported := reported w |}.

(** [onSplitRatioChange?.(v)]. *)
Definition callOnSplitRatioChange (p : Props) (v : num) (w : World) : World :=
  if onSplitRatioChange p then
    {| splitRatio := splitRatio w; isDragging := isDragging w;
       isLeftCollapsed := isLeftCollapsed w; isRightCollapsed := isRightCollapsed w;
       containerRef := containerRef w;
       dragStartX := dragStartX w; dragStartRatio := dragStartRatio w;
       bodyCursor := bodyCursor w; bodyUserSelect := bodyUserSelect w;
       reported := reported w ++ [v] |}
  else w.

(** The first render: [useState(initialSplitRatio)], [useState(false)]
    three times, [useRef(null)], [useRef(0)] twice. *)
Definition mount (p : Props) : World :=
  {| splitRatio := initialSplitRatio p;
     isDragging := false;
     isLeftCollapsed := false;
     isRightCollapsed := false;
     containerRef := None;
     dragStartX := lit_0;
     dragStartRatio := lit_0;
     bodyCursor := EmptyString;
     bodyUserSelect := EmptyString;
     reported := [] |}.

Definition handleMouseDown (e : MouseEvent) (w : World) : World :=
  setBodyStyle "col-resize" "none"
    (setDragStart (clientX e) (splitRatio w)
       (setIsDragging true w)).

(** The locals of [handleMouseMove], each a function of what it reads. *)
Definition deltaRatio (w : World) (e : MouseEvent) (containerWidth : num) : num :=
  (clientX e - dragStartX w) / containerWidth.

(** [let newRatio = dragStartRatio.current + deltaRatio], the target
    before the constraints. *)
Definition rawRatio (w : World) (e : MouseEvent) (containerWidth : num) : num :=
  dragStartRatio w + deltaRatio w e containerWidth.

Definition minLeftRatio (p : Props) (containerWidth : num) : num :=
  minLeftWidth p / containerWidth.

Definition minRightRatio (p : Props) (containerWidth : num) : num :=
  minRightWidth p / containerWidth.

(** [typeof maxLeftWidth === 'number' && maxLeftWidth <= 1 ? maxLeftWidth
    : maxLeftWidth / containerWidth]; the prop is a number by its type. *)
Definition maxLeftRatio (p : Props) (containerWidth : num) : num :=
  if maxLeftWidth p <=? lit_1 then maxLeftWidth p else maxLeftWidth p / containerWidth.

Definition maxRightRatio (p : Props) (containerWidth : num) : num :=
  if maxRightWidth p <=? lit_1 then maxRightWidth p else maxRightWidth p / containerWidth.

(** The two assignments under [// Apply constraints]. *)
Definition applyMinConstraints (p : Props) (containerWidth newRatio : num) : num :=
  Math_max (minLeftRatio p containerWidth)
           (Math_min (lit_1 - minRightRatio p containerWidth) newRatio).

Definition applyMaxConstraints (p : Props) (containerWidth newRatio : num) : num :=
  Math_max (lit_1 - maxRightRatio p containerWidth)
           (Math_min (maxLeftRatio p containerWidth) newRatio).

Definition applyConstraints (p : Props) (containerWidth newRatio : num) : num :=
  applyMaxConstraints p containerWidth (applyMinConstraints p containerWidth newRatio).

Definition handleMouseMove (p : Props) (e : MouseEvent) (w : World) : Completion World :=
  if negb (isDragging w) || negb (truthy (containerRef w)) then Normal w
  else
    containerRect <- getBoundingClientRect (containerRef w) ;;
    let containerWidth := rect_width containerRect in
    let newRatio := applyConstraints p containerWidth (rawRatio w e containerWidth) in
    Normal (callOnSplitRatioChange p newRatio (setSplitRatio newRatio w)).

Definition handleMouseUp (w : World) : World :=
  setBodyStyle EmptyString EmptyString (setIsDragging false w).

Definition resetSplit (p : Props) (w : World) : World :=
  callOnSplitRatioChange p lit_0_5 (setSplitRatio lit_0_5 w).

Definition toggleLeftPanel (w : World) : World :=
  if isLeftCollapsed w then setIsLeftCollapsed false (setSplitRatio lit_0_5 w)
  else setIsLeftCollapsed true (setSplitRatio lit_0_02 w).

Definition toggleRightPanel (w : World) : World :=
  if isRightCollapsed w then setIsRightCollapsed false (setSplitRatio lit_0_5 w)
  else setIsRightCollapsed true (setSplitRatio lit_0_98 w).

(** What happens to an instance: the user's gestures and the browser's
    layout of the container. *)
Inductive Event : Type :=
| MouseDown (e : MouseEvent)
| MouseMove (e : MouseEvent)
| MouseUp
| ClickReset
| ClickToggleLeft
| ClickToggleRight
| Layout (current : option DOMRect).

(** The [useEffect] keeps [handleMouseMove] and [handleMouseUp] on
    [document] exactly while [isDragging] is true. *)
Definition step (p : Props) (ev : Event) (w : World) : Completion World :=
  match ev with
  | MouseDown e => Normal (handleMouseDown e w)
  | MouseMove e => if isDragging w then handleMouseMove p e w else Normal w
  | MouseUp => if isDragging w then Normal (handleMouseUp w) else Normal w
  | ClickReset => Normal (resetSplit p w)
  | ClickToggleLeft => Normal (toggleLeftPanel w)
  | ClickToggleRight => Normal (toggleRightPanel w)
  | Layout current => Normal (setContainer current w)
  end.

Fixpoint run (p : Props) (evs : list Event) (w : World) : Completion World :=
  match evs with
  | [] => Normal w
  | ev :: rest => w' <- step p ev w ;; run p rest w'
  end.

(** *** The specification's [UpdateDrag], following its wording

    "computes deltaRatio = (pointerX - startX) / containerWidth; new ratio
    = startRatio + deltaRatio, then clamped to [minLeftFrac,
    1-minRightFrac] and further to [1-maxRightFrac, maxLeftFrac]". *)

Definition spec_clamp (lo hi x : num) : num := Math_max lo (Math_min hi x).

Definition spec_deltaRatio (pointerX startX containerWidth : num) : num :=
  (pointerX - startX) / containerWidth.

Definition spec_rawTarget (startRatio startX containerWidth pointerX : num) : num :=
  startRatio + spec_deltaRatio pointerX startX containerWidth.

Definition spec_UpdateDrag
    (minLeftFrac minRightFrac maxLeftFrac maxRightFrac : num)
    (startRatio startX containerWidth pointerX : num) : num :=
  spec_clamp (lit_1 - maxRightFrac) maxLeftFrac
    (spec_clamp minLeftFrac (lit_1 - minRightFrac)
       (spec_rawTarget startRatio startX containerWidth pointerX)).

(** The interval of the specification's bound property. *)
Definition ratioLowerBound (p : Props) (containerWidth : num) : num :=
  Math_max (minLeftRatio p containerWidth) (lit_1 - maxRightRatio p containerWidth).

Definition ratioUpperBound (p : Props) (containerWidth : num) : num :=
  Math_min (lit_1 - minRightRatio p containerWidth) (maxLeftRatio p containerWidth).

(** The ratio that a pointer move at [e] stores, given the container's
    width at that move. *)
Definition dragResult (p : Props) (w : World) (containerWidth : num) (e : MouseEvent) : num :=
  applyConstraints p containerWidth (rawRatio w e containerWidth).

(** Two worlds in the same drag session over the same container. *)
Definition sameSession (w w' : World) : Prop :=
  isDragging w' = isDragging w /\
  containerRef w' = containerRef w /\
  dragStartX w' = dragStartX w /\
  dragStartRatio w' = dragStartRatio w.

(** Named inputs of the examples. *)
Definition rectOfWidth (width : Z) : DOMRect :=
  {| rect_left := lit_0; rect_width := of_Z width |}.

Definition mouseAt (x : Z) : MouseEvent := {| clientX := of_Z x |}.

(** The props with which the TypeScript [App] renders the component:
    [initialSplitRatio = 0.6] and a callback, the rest by default. *)
Definition appProps : Props :=
  {| initialSplitRatio := dec 6 10;
     minLeftWidth := lit_300;
     minRightWidth := lit_300;
     maxLeftWidth := lit_0_8;
     maxRightWidth := lit_0_8;
     onSplitRatioChange := true |}.

(** Minimum widths of 300px and no binding maximum: both maximal
    fractions are 1. *)
Definition noMaxProps : Props :=
  {| initialSplitRatio := lit_0_5;
     minLeftWidth := lit_300;
     minRightWidth := lit_300;
     maxLeftWidth := lit_1;
     maxRightWidth := lit_1;
     onSplitRatioChange := true |}.

(** The default bounds with an initial ratio that is not a number. *)
Definition nanProps : Props :=
  {| initialSplitRatio := nan;
     minLeftWidth := lit_300;
     minRightWidth := lit_300;
     maxLeftWidth := lit_0_8;
     maxRightWidth := lit_0_8;
     onSplitRatioChange := true |}.

(** The instance of [appProps] laid out [width] pixels wide. *)
Definition appWorld (width : Z) : World :=
  setContainer (Some (rectOfWidth width)) (mount appProps).

(** A prop outside the unit interval, as the caller may pass it. *)
Definition oversizedProps : Props :=
  {| initialSplitRatio := dec 15 10;
     minLeftWidth := lit_300;
     minRightWidth := lit_300;
     maxLeftWidth := lit_0_8;
     maxRightWidth := lit_0_8;
     onSplitRatioChange := true |}.

(** The ratio in which a run ends, and the calls it has made. *)
Definition finalRatio (c : Completion World) : option num :=
  match c with
  | Normal w => Some (splitRatio w)
  | Throw _ => None
  end.

Definition finalReported (c : Completion World) : option (list num) :=
  match c with
  | Normal w => Some (reported w)
  | Throw _ => None
  end.

End Tsx.

(* ================================================================== *)
(** ** What [ResizableSplitView.tsx] renders

    The [style] and [className] values computed from the state (lines
    565-566, 579, 605, 643 and 669). *)

Module TsxRender.
Import JsNumber Dom Tsx.
Local Open Scope js_scope.

(** A CSS percentage, by the number before the [%] sign: ['2%'] is
    [Percent 2] and the template [`${n}%`] is [Percent n]. *)
Inductive CssWidth : Type :=
| Percent (n : num).

Definition leftWidth (w : World) : CssWidth :=
  if isLeftCollapsed w then Percent lit_2 else Percent (splitRatio w * lit_100).

Definition rightWidth (w : World) : CssWidth :=
  if isRightCollapsed w then Percent lit_2
  else Percent ((lit_1 - splitRatio w) * lit_100).

(** The title and the content of a pane carry the class [hidden] while
    the pane is collapsed. *)
Definition leftContentHidden (w : World) : bool := isLeftCollapsed w.
Definition rightContentHidden (w : World) : bool := isRightCollapsed w.


End TsxRender.

(* ================================================================== *)
(** ** The TypeScript [App], which renders the split view

    State and handlers of [App.tsx]: the view state and the [split]
    branch of the render (lines 210-215, 440-442, 530-543 and 642-689),
    the playback timer and the player handlers (199-208, 400-434), the
    speaker statistics (378-392) and the segment handlers (444-495). *)

Module App.
Import JsNumber Dom.
Local Open Scope js_scope.

(** *** The view state and the split view in it *)

(** [ViewState['activeView']]. *)
Inductive ActiveView : Type := video | transcript | timeline | split.

Definition isSplit (v : ActiveView) : bool :=
  match v with split => true | _ => false end.

(** [ViewState]; its [dockableLayout] is an empty object that nothing
    reads or writes. *)
Record ViewState : Type := {
  activeView : ActiveView;
  splitRatio : num;
  transcriptOverlay : bool
}.

Definition initialViewState : ViewState :=
  {| activeView := video; splitRatio := dec 6 10; transcriptOverlay := false |}.

(** [setViewState(prev => ({ ...prev, activeView: view }))]. *)
Definition handleViewChange (view : ActiveView) (prev : ViewState) : ViewState :=
  {| activeView := view;
     splitRatio := splitRatio prev;
     transcriptOverlay := transcriptOverlay prev |}.

(** [setViewState(prev => ({ ...prev, splitRatio: ratio }))], the
    [onSplitRatioChange] passed to the split view. *)
Definition onSplitRatioChange (ratio : num) (prev : ViewState) : ViewState :=
  {| activeView := activeView prev;
     splitRatio := ratio;
     transcriptOverlay := transcriptOverlay prev |}.

(** The props of [<ResizableSplitView ... />]: the initial ratio from
    the view state, a callback, and the component's defaults. *)
Definition splitViewProps (vs : ViewState) : Tsx.Props :=
  {| Tsx.initialSplitRatio := splitRatio vs;
     Tsx.minLeftWidth := lit_300;
     Tsx.minRightWidth := lit_300;
     Tsx.maxLeftWidth := lit_0_8;
     Tsx.maxRightWidth := lit_0_8;
     Tsx.onSplitRatioChange := true |}.

(** The [App] with the split view it has mounted, if any, and the two
    styles of [document.body], which outlive the instances. *)
Record Shell : Type := {
  viewState : ViewState;
  splitView : option Tsx.World;
  documentCursor : string;
  documentUserSelect : string
}.

Definition initialShell : Shell :=
  {| viewState := initialViewState;
     splitView := None;
     documentCursor := EmptyString;
     documentUserSelect := EmptyString |}.

(** [{viewState.activeView === 'split' && (<ResizableSplitView ... />)}]:
    React mounts an instance when the branch appears, keeps it while the
    branch stays and drops it when the branch goes; the 0.2s exit
    animation of the enclosing [AnimatePresence] is over before the next
    event.  A new instance finds [document.body] as it is. *)
Definition render (vs : ViewState) (s : Shell) : Shell :=
  {| viewState := vs;
     splitView :=
       if isSplit (activeView vs) then
         match splitView s with
         | Some w => Some w
         | None =>
             Some (Tsx.setBodyStyle (documentCursor s) (documentUserSelect s)
                     (Tsx.mount (splitViewProps vs)))
         end
       else None;
     documentCursor := documentCursor s;
     documentUserSelect := documentUserSelect s |}.

(** The calls that a step of the instance has added to those made to
    the parent, applied in order. *)
Definition deliver (before after : list num) (vs : ViewState) : ViewState :=
  fold_left (fun vs' ratio => onSplitRatioChange ratio vs')
            (skipn (List.length before) after) vs.

Inductive Event : Type :=
| ChangeView (view : ActiveView)      (* the view buttons, [mod+1], [mod+2] *)
| HotkeyToggleSplit                   (* [mod+shift+t] *)
| SplitViewEvent (ev : Tsx.Event).

Definition step (ev : Event) (s : Shell) : Completion Shell :=
  match ev with
  | ChangeView view => Normal (render (handleViewChange view (viewState s)) s)
  | HotkeyToggleSplit =>
      Normal (render (handleViewChange
                        (if isSplit (activeView (viewState s)) then transcript else split)
                        (viewState s)) s)
  | SplitViewEvent ev' =>
      match splitView s with
      | None => Normal s
      | Some w =>
          w' <- Tsx.step (splitViewProps (viewState s)) ev' w ;;
          Normal {| viewState := deliver (Tsx.reported w) (Tsx.reported w') (viewState s);
                    splitView := Some w';
                    documentCursor := Tsx.bodyCursor w';
                    documentUserSelect := Tsx.bodyUserSelect w' |}
      end
  end.

Fixpoint run (evs : list Event) (s : Shell) : Completion Shell :=
  match evs with
  | [] => Normal s
  | ev :: rest => s' <- step ev s ;; run rest s'
  end.

(** *** The player *)

Record PlayerState : Type := {
  currentTime : num;
  duration : num;
  isPlaying : bool;
  volume : num;
  playbackRate : num;
  loop : bool;
  transcriptSync : bool;
  selectedSpeaker : option string
}.

Definition initialPlayerState : PlayerState :=
  {| currentTime := lit_0;
     duration := of_Z 180;
     isPlaying := false;
     volume := lit_1;
     playbackRate := lit_1;
     loop := false;
     transcriptSync := true;
     selectedSpeaker := None |}.

Definition setCurrentTime (t : num) (prev : PlayerState) : PlayerState :=
  {| currentTime := t; duration := duration prev; isPlaying := isPlaying prev;
     volume := volume prev; playbackRate := playbackRate prev; loop := loop prev;
     transcriptSync := transcriptSync prev; selectedSpeaker := selectedSpeaker prev |}.

Definition setIsPlaying (b : bool) (prev : PlayerState) : PlayerState :=
  {| currentTime := currentTime prev; duration := duration prev; isPlaying := b;
     volume := volume prev; playbackRate := playbackRate prev; loop := loop prev;
     transcriptSync := transcriptSync prev; selectedSpeaker := selectedSpeaker prev |}.

(** The updater of the 100ms interval. *)
Definition tick (prev : PlayerState) : PlayerState :=
  let newTime := currentTime prev + lit_0_1 in
  if duration prev <=? newTime
  then setIsPlaying false (setCurrentTime (duration prev) prev)
  else setCurrentTime newTime prev.

Definition handlePlay (prev : PlayerState) : PlayerState := setIsPlaying true prev.
Definition handlePause (prev : PlayerState) : PlayerState := setIsPlaying false prev.
Definition handleSeek (time : num) (prev : PlayerState) : PlayerState :=
  setCurrentTime time prev.

Inductive PlayerEvent : Type :=
| Play
| Pause
| Seek (time : num)
| Tick.

(** The interval exists exactly while [isPlaying] is true. *)
Definition playerStep (ev : PlayerEvent) (s : PlayerState) : PlayerState :=
  match ev with
  | Play => handlePlay s
  | Pause => handlePause s
  | Seek time => handleSeek time s
  | Tick => if isPlaying s then tick s else s
  end.

Definition playerRun (evs : list PlayerEvent) (s : PlayerState) : PlayerState :=
  fold_left (fun s' ev => playerStep ev s') evs s.

(** *** Segments, speakers and the undo stack *)

Record Speaker : Type := {
  speaker_id : string;
  speaker_name : string;
  speaker_color : string;
  speaker_avatar : option string
}.

Record TranscriptSegment : Type := {
  id : string;
  start : num;
  end_ : num;
  text : string;
  speaker : Speaker;
  confidence : num;
  isEditable : bool
}.

Definition setText (newText : string) (seg : TranscriptSegment) : TranscriptSegment :=
  {| id := id seg; start := start seg; end_ := end_ seg; text := newText;
     speaker := speaker seg; confidence := confidence seg; isEditable := isEditable seg |}.

Definition setSpeaker (sp : Speaker) (seg : TranscriptSegment) : TranscriptSegment :=
  {| id := id seg; start := start seg; end_ := end_ seg; text := text seg;
     speaker := sp; confidence := confidence seg; isEditable := isEditable seg |}.

(** An [UndoAction] of type ['edit']; [originalText] is [None] where the
    source has [undefined]. *)
Record UndoAction : Type := {
  timestamp : num;
  originalText : option string;
  segmentId : string
}.

(** [Record<string, UndoAction[]>], by its own keys.  The state starts
    as the object [{}], so a key that the object does not own is looked up
    in [Object.prototype]. *)
Definition UndoStack : Type := string -> option (list UndoAction).

Definition emptyUndoStack : UndoStack := fun _ => None.

(** The property names of [Object.prototype] in V8. *)
Definition objectPrototypeNames : list string :=
  ["constructor"; "__defineGetter__"; "__defineSetter__"; "hasOwnProperty";
   "__lookupGetter__"; "__lookupSetter__"; "isPrototypeOf"; "propertyIsEnumerable";
   "toString"; "valueOf"; "__proto__"; "toLocaleString"]%string.

Definition inherited (key : string) : bool :=
  existsb (String.eqb key) objectPrototypeNames.

(** [[...(prev.undoStack[segmentId] || []), undoAction]].  An own value
    is an array.  An inherited value is a function, or [Object.prototype]
    itself for [__proto__]: it is truthy and not iterable, and spreading
    it raises a [TypeError]. *)
Definition pushUndo (stack : UndoStack) (segmentId : string) (undoAction : UndoAction)
  : Completion (list UndoAction) :=
  match stack segmentId with
  | Some actions => Normal (actions ++ [undoAction])
  | None => if inherited segmentId then Throw "TypeError" else Normal [undoAction]
  end.

Inductive AutosaveStatus : Type := saved | saving | pending.

Record Editor : Type := {
  transcriptSegments : list TranscriptSegment;
  undoStack : UndoStack;
  autosaveStatus : AutosaveStatus
}.

(** [transcriptSegments.find(s => s.id === segmentId)]. *)
Definition findSegment (segmentId : string) (segs : list TranscriptSegment)
  : option TranscriptSegment :=
  find (fun s => String.eqb (id s) segmentId) segs.

(** [handleSegmentEdit]; [now] is the value of [Date.now()].  The three
    state updates take effect together, or the updater of the edit state
    throws. *)
Definition handleSegmentEdit (now : num) (segmentId newText : string) (ed : Editor)
  : Completion Editor :=
  let undoAction :=
    {| timestamp := now;
       originalText := option_map text (findSegment segmentId (transcriptSegments ed));
       segmentId := segmentId |} in
  actions <- pushUndo (undoStack ed) segmentId undoAction ;;
  Normal
    {| transcriptSegments :=
         map (fun seg => if String.eqb (id seg) segmentId then setText newText seg else seg)
             (transcriptSegments ed);
       undoStack :=
         fun key => if String.eqb key segmentId then Some actions else undoStack ed key;
       autosaveStatus := pending |}.

(** [handleSpeakerAssign]: nothing happens for an unknown speaker. *)
Definition handleSpeakerAssign (speakers : list Speaker) (segmentId speakerId : string)
    (segs : list TranscriptSegment) : list TranscriptSegment :=
  match find (fun s => String.eqb (speaker_id s) speakerId) speakers with
  | None => segs
  | Some sp =>
      map (fun seg => if String.eqb (id seg) segmentId then setSpeaker sp seg else seg) segs
  end.

(** [text.split(' ').length]: one more than the number of spaces. *)
Fixpoint countSpaces (s : string) : nat :=
  match s with
  | EmptyString => O
  | String c rest =>
      if Ascii.eqb c " "%char then S (countSpaces rest) else countSpaces rest
  end.

Definition splitLength (s : string) : nat := S (countSpaces s).

Definition ofLength (n : nat) : num := of_Z (Z.of_nat n).

Record SpeakerStats : Type := {
  speakerId : string;
  totalTime : num;
  segmentCount : nat;
  averageConfidence : num;
  wordsPerMinute : num
}.

Definition statsOf (segs : list TranscriptSegment) (sp : Speaker) : SpeakerStats :=
  let segments :=
    filter (fun seg => String.eqb (speaker_id (speaker seg)) (speaker_id sp)) segs in
  let totalTime :=
    fold_left (fun acc seg => acc + (end_ seg - start seg)) segments lit_0 in
  let avgConfidence :=
    orElse (fold_left (fun acc seg => acc + confidence seg) segments lit_0
            / ofLength (List.length segments)) lit_0 in
  let wordCount :=
    fold_left (fun acc seg => acc + ofLength (splitLength (text seg))) segments lit_0 in
  {| speakerId := speaker_id sp;
     totalTime := totalTime;
     segmentCount := List.length segments;
     averageConfidence := avgConfidence;
     wordsPerMinute :=
       if ltb lit_0 totalTime then wordCount / (totalTime / lit_60) else lit_0 |}.

Definition speakerStats (speakers : list Speaker) (segs : list TranscriptSegment)
  : list SpeakerStats :=
  map (statsOf segs) speakers.

(** Auxiliary predicates and sample data for the statements below. *)

(** The view buttons and hotkeys leave the stored ratio alone; whenever
    the active view is [split] an instance is mounted, and an instance
    mounted by them starts from the stored ratio. *)
Definition holdsRatio (v : num) (s : Shell) : Prop :=
  splitRatio (viewState s) = v /\
  match splitView s with
  | Some w => Tsx.splitRatio w = v
  | None => True
  end.

(** The events that change the view: the buttons and the hotkeys. *)
Definition isNavigation (ev : Event) : bool :=
  match ev with
  | ChangeView _ | HotkeyToggleSplit => true
  | SplitViewEvent _ => false
  end.

Definition shellAt (width : Z) : Shell :=
  {| viewState := handleViewChange split initialViewState;
     splitView := Some (Tsx.handleMouseDown (Tsx.mouseAt 600) (Tsx.appWorld width));
     documentCursor := "col-resize";
     documentUserSelect := "none" |}.

(** A seek to a time that is not past the end. *)
Definition seeksWithin (d : num) (ev : PlayerEvent) : Prop :=
  match ev with
  | Seek time => num_le time d
  | _ => True
  end.

Definition host : Speaker :=
  {| speaker_id := "host"; speaker_name := "Alex Chen";
     speaker_color := "#3b82f6"; speaker_avatar := None |}.

Definition guest : Speaker :=
  {| speaker_id := "guest"; speaker_name := "Dr. Sarah Martinez";
     speaker_color := "#10b981"; speaker_avatar := None |}.

Definition hostSegment : TranscriptSegment :=
  {| id := "1"; start := lit_0; end_ := dec 52 10;
     text := "Welcome to our podcast."; speaker := host;
     confidence := dec 98 100; isEditable := true |}.

Definition oneSegmentEditor : Editor :=
  {| transcriptSegments := [hostSegment];
     undoStack := emptyUndoStack;
     autosaveStatus := saved |}.

End App.

(* ================================================================== *)
(** ** [ui/components/CompactTimelinePanel.tsx], the right pane

    The state and the handlers of the timeline that the [App] passes to
    the split view as its right component: [handleTimelineClick] (lines
    49-58), [handleZoomIn] and [handleZoomOut] (72-78), the visible
    duration (81) and the placement of a segment (229-241). *)

Module Timeline.
Import JsNumber Dom.
Local Open Scope js_scope.

(** The two [useState] cells and [timelineRef.current]. *)
Record State : Type := {
  zoomLevel : num;
  scrollPosition : num;
  timelineRef : option DOMRect
}.

Definition mount : State :=
  {| zoomLevel := lit_1; scrollPosition := lit_0; timelineRef := None |}.


(** The time that a click asks for, before it is clamped. *)
Definition clickedTime (duration : num) (rect : DOMRect) (e : MouseEvent) (st : State) : num :=
  let clickX := clientX e - rect_left rect in
  let timelineWidth := rect_width rect in
  (clickX / timelineWidth) * duration * zoomLevel st + scrollPosition st.

(** [handleTimelineClick]: the argument of the call to [onSeek], if the
    handler makes one. *)
Definition handleTimelineClick (duration : num) (e : MouseEvent) (st : State)
  : Completion (option num) :=
  if negb (truthy (timelineRef st)) then Normal None
  else
    rect <- getBoundingClientRect (timelineRef st) ;;
    Normal (Some (Math_max lit_0 (Math_min duration (clickedTime duration rect e st)))).






Definition visibleDuration (duration : num) (st : State) : num :=
  duration / zoomLevel st.

(** The fields of a [TimelineSegment] that place it. *)
Record TimelineSegment : Type := { seg_start : num; seg_end : num }.

Definition startPercent (duration : num) (st : State) (seg : TimelineSegment) : num :=
  ((seg_start seg - scrollPosition st) / visibleDuration duration st) * lit_100.

Definition widthPercent (duration : num) (st : State) (seg : TimelineSegment) : num :=
  ((seg_end seg - seg_start seg) / visibleDuration duration st) * lit_100.

(** The [left] and [width] percentages of a segment's box, or [None]
    where the source returns [null]. *)
Definition placeSegment (duration : num) (st : State) (seg : TimelineSegment)
  : option (num * num) :=
  let sp := startPercent duration st seg in
  let wp := widthPercent duration st seg in
  if ltb lit_100 sp || ltb (sp + wp) lit_0 then None
  else Some (Math_max lit_0 sp, Math_min wp (lit_100 - Math_max lit_0 sp)).

(** Structural equality of doubles, to look a value up in a list. *)
Definition sameDouble (x y : num) : bool :=
  match x, y with
  | S754_zero s, S754_zero s' => Bool.eqb s s'
  | S754_infinity s, S754_infinity s' => Bool.eqb s s'
  | S754_nan, S754_nan => true
  | S754_finite s m e, S754_finite s' m' e' =>
      Bool.eqb s s' && Pos.eqb m m' && Z.eqb e e'
  | _, _ => false
  end.

Definition knownLevel (levels : list num) (z : num) : bool :=
  existsb (sameDouble z) levels.



End Timeline.

(* ================================================================== *)
(** ** [components/layout/ResizableSplitView.jsx]

    Handlers: [handleMouseDown] (lines 16-19), [handleMouseMove] (21-32),
    [handleMouseUp] (34-36), the [useEffect] (38-48). *)

Module Jsx.
Import JsNumber Dom.
Local Open Scope js_scope.

Record Props : Type := {
  initialSplitRatio : num;
  onSplitRatioChange : bool
}.

(** The two [useState] cells, [containerRef.current] and the arguments
    of the calls made to the parent's callback, oldest first. *)
Record World : Type := {
  splitRatio : num;
  isDragging : bool;
  containerRef : option DOMRect;
  reported : list num
}.

Definition setSplitRatio (v : num) (w : World) : World :=
  {| splitRatio := v; isDragging := isDragging w;
     containerRef := containerRef w; reported := reported w |}.

Definition setIsDragging (b : bool) (w : World) : World :=
  {| splitRatio := splitRatio w; isDragging := b;
     containerRef := containerRef w; reported := reported w |}.

Definition setContainer (c : option DOMRect) (w : World) : World :=
  {| splitRatio := splitRatio w; isDragging := isDragging w;
     containerRef := c; reported := reported w |}.

(** [if (onSplitRatioChange) { onSplitRatioChange(v); }]. *)
Definition callOnSplitRatioChange (p : Props) (v : num) (w : World) : World :=
  if onSplitRatioChange p then
    {| splitRatio := splitRatio w; isDragging := isDragging w;
       containerRef := containerRef w; reported := reported w ++ [v] |}
  else w.

Definition mount (p : Props) : World :=
  {| splitRatio := initialSplitRatio p;
     isDragging := false;
     containerRef := None;
     reported := [] |}.

(** The pointer position of the mouse-down is not read. *)
Definition handleMouseDown (e : MouseEvent) (w : World) : World :=
  setIsDragging true w.

(** [Math.max(0.2, Math.min(0.8, (e.clientX - rect.left) / rect.width))]. *)
Definition clampedRatio (rect : DOMRect) (e : MouseEvent) : num :=
  Math_max lit_0_2 (Math_min lit_0_8 ((clientX e - rect_left rect) / rect_width rect)).

Definition handleMouseMove (p : Props) (e : MouseEvent) (w : World) : Completion World :=
  if negb (isDragging w) || negb (truthy (containerRef w)) then Normal w
  else
    rect <- getBoundingClientRect (containerRef w) ;;
    Normal (callOnSplitRatioChange p (clampedRatio rect e)
              (setSplitRatio (clampedRatio rect e) w)).

Definition handleMouseUp (w : World) : World := setIsDragging false w.

Inductive Event : Type :=
| MouseDown (e : MouseEvent)
| MouseMove (e : MouseEvent)
| MouseUp
| Layout (current : option DOMRect).

(** The [useEffect] keeps both listeners on [document] exactly while
    [isDragging] is true. *)
Definition step (p : Props) (ev : Event) (w : World) : Completion World :=
  match ev with
  | MouseDown e => Normal (handleMouseDown e w)
  | MouseMove e => if isDragging w then handleMouseMove p e w else Normal w
  | MouseUp => if isDragging w then Normal (handleMouseUp w) else Normal w
  | Layout current => Normal (setContainer current w)
  end.

Fixpoint run (p : Props) (evs : list Event) (w : World) : Completion World :=
  match evs with
  | [] => Normal w
  | ev :: rest => w' <- step p ev w ;; run p rest w'
  end.

Definition finalRatio (c : Completion World) : option num :=
  match c with
  | Normal w => Some (splitRatio w)
  | Throw _ => None
  end.

(** The props with which [App.jsx] renders the component. *)
Definition appProps : Props :=
  {| initialSplitRatio := dec 6 10; onSplitRatioChange := true |}.

Definition rectAt (left width : Z) : DOMRect :=
  {| rect_left := of_Z left; rect_width := of_Z width |}.

Definition mouseAt (x : Z) : MouseEvent := {| clientX := of_Z x |}.

End Jsx.

(* ================================================================== *)
(** ** The order of JavaScript numbers

    [SFcompare] orders the values that are not NaN: by sign, then by
    exponent and mantissa.  The lemmas below are what the clamping
    arguments need: a total preorder whose equivalence is [===]. *)

Module JsOrder.
Import JsNumber.

Ltac order_cases :=
  repeat match goal with
  | |- context [Pos.compare_cont Eq ?p ?q] =>
      progress change (Pos.compare_cont Eq p q) with (Pos.compare p q)
  end;
  repeat match goal with
  | |- context [(?a ?= ?b)%Z] => destruct (Z.compare_spec a b)
  | |- context [(?a ?= ?b)%positive] => destruct (Pos.compare_spec a b)
  end; simpl; intros; subst; try reflexivity; try discriminate; try lia.

Lemma num_le_not_nan_l x y : num_le x y -> isNaN x = false.
Proof. destruct x, y; simpl; unfold num_le, leb, SFleb; simpl; congruence. Qed.

Lemma num_le_not_nan_r x y : num_le x y -> isNaN y = false.
Proof. destruct x, y; simpl; unfold num_le, leb, SFleb; simpl; congruence. Qed.

Lemma num_le_refl x : isNaN x = false -> num_le x x.
Proof.
  unfold num_le, leb, SFleb.
  destruct x as [[]|[]| |[] m e]; simpl; try reflexivity; try discriminate;
    intros _; rewrite Z.compare_refl; fold (Pos.compare m m); rewrite Pos.compare_refl; reflexivity.
Qed.

Lemma num_le_trans x y z : num_le x y -> num_le y z -> num_le x z.
Proof.
  unfold num_le, leb, SFleb.
  destruct x as [[]|[]| |[] mx ex], y as [[]|[]| |[] my ey], z as [[]|[]| |[] mz ez];
    simpl; try reflexivity; try discriminate;
    order_cases.
Qed.

Lemma num_le_total x y : isNaN x = false -> isNaN y = false -> num_le x y \/ num_le y x.
Proof.
  unfold num_le, leb, SFleb.
  destruct x as [[]|[]| |[] mx ex], y as [[]|[]| |[] my ey];
    simpl; try discriminate; intros _ _; auto;
    order_cases; auto.
Qed.

Lemma compare_Gt_le x y : SFcompare x y = Some Gt -> num_le y x.
Proof.
  unfold num_le, leb, SFleb.
  destruct x as [[]|[]| |[] mx ex], y as [[]|[]| |[] my ey];
    simpl; try reflexivity; try discriminate;
    order_cases.
Qed.

Lemma compare_Eq_le x y : SFcompare x y = Some Eq -> num_le x y /\ num_le y x.
Proof.
  unfold num_le, leb, SFleb.
  destruct x as [[]|[]| |[] mx ex], y as [[]|[]| |[] my ey];
    simpl; try discriminate; auto;
    order_cases; auto.
Qed.

Lemma num_eq_le x y : num_eq x y <-> num_le x y /\ num_le y x.
Proof.
  unfold num_eq, strict_eq, SFeqb, num_le, leb, SFleb.
  destruct x as [[]|[]| |[] mx ex], y as [[]|[]| |[] my ey];
    simpl; try (split; [intros; split; (reflexivity || discriminate) | intros []; (reflexivity || discriminate)]);
    order_cases; split; intros; try split; try reflexivity; try discriminate; try tauto; try lia.
Qed.

Lemma compare_Lt_le x y : SFcompare x y = Some Lt -> num_le x y.
Proof. unfold num_le, leb, SFleb; intros ->; reflexivity. Qed.

Lemma compare_None x y : SFcompare x y = None -> isNaN x = true \/ isNaN y = true.
Proof. destruct x as [[]|[]| |[] mx ex], y as [[]|[]| |[] my ey]; simpl; auto; discriminate. Qed.

Lemma num_eq_refl x : isNaN x = false -> num_eq x x.
Proof. intros H; apply num_eq_le; split; apply num_le_refl; exact H. Qed.

Lemma num_eq_sym x y : num_eq x y -> num_eq y x.
Proof. rewrite !num_eq_le; tauto. Qed.

Lemma num_eq_trans x y z : num_eq x y -> num_eq y z -> num_eq x z.
Proof.
  rewrite !num_eq_le; intros [A B] [C D]; split; eapply num_le_trans; eassumption.
Qed.

(** [Math.max] returns one of its arguments, the larger one, or NaN. *)
Lemma Math_max_cases a b :
  (Math_max a b = a /\ num_le b a) \/
  (Math_max a b = b /\ num_le a b) \/
  (Math_max a b = nan /\ (isNaN a = true \/ isNaN b = true)).
Proof.
  unfold Math_max; destruct (SFcompare a b) as [[]|] eqn:E.
  - destruct (compare_Eq_le _ _ E) as [A B]; destruct a as [[]|[]| |[] m e]; auto.
  - right; left; split; [reflexivity | apply compare_Lt_le, E].
  - left; split; [reflexivity | apply compare_Gt_le, E].
  - right; right; split; [reflexivity | apply compare_None, E].
Qed.

Lemma Math_min_cases a b :
  (Math_min a b = a /\ num_le a b) \/
  (Math_min a b = b /\ num_le b a) \/
  (Math_min a b = nan /\ (isNaN a = true \/ isNaN b = true)).
Proof.
  unfold Math_min; destruct (SFcompare a b) as [[]|] eqn:E.
  - destruct (compare_Eq_le _ _ E) as [A B]; destruct a as [[]|[]| |[] m e]; auto.
  - left; split; [reflexivity | apply compare_Lt_le, E].
  - right; left; split; [reflexivity | apply compare_Gt_le, E].
  - right; right; split; [reflexivity | apply compare_None, E].
Qed.

Ltac nan_absurd :=
  match goal with
  | H : isNaN ?x = true, L : num_le ?x _ |- _ =>
      rewrite (num_le_not_nan_l _ _ L) in H; discriminate H
  | H : isNaN ?x = true, L : num_le _ ?x |- _ =>
      rewrite (num_le_not_nan_r _ _ L) in H; discriminate H
  | H : isNaN ?x = true, L : isNaN ?x = false |- _ =>
      rewrite L in H; discriminate H
  end.

Lemma Math_max_lub a b c : num_le a c -> num_le b c -> num_le (Math_max a b) c.
Proof.
  intros A B; destruct (Math_max_cases a b) as [[-> _]|[[-> _]|[_ [N|N]]]];
    try assumption; nan_absurd.
Qed.

Lemma Math_min_glb a b c : num_le c a -> num_le c b -> num_le c (Math_min a b).
Proof.
  intros A B; destruct (Math_min_cases a b) as [[-> _]|[[-> _]|[_ [N|N]]]];
    try assumption; nan_absurd.
Qed.

Lemma Math_max_ge_l a b : isNaN a = false -> isNaN b = false -> num_le a (Math_max a b).
Proof.
  intros A B; destruct (Math_max_cases a b) as [[-> _]|[[-> L]|[_ [N|N]]]];
    try assumption; try nan_absurd. apply num_le_refl, A.
Qed.

Lemma Math_max_ge_r a b : isNaN a = false -> isNaN b = false -> num_le b (Math_max a b).
Proof.
  intros A B; destruct (Math_max_cases a b) as [[-> L]|[[-> _]|[_ [N|N]]]];
    try assumption; try nan_absurd. apply num_le_refl, B.
Qed.

Lemma Math_min_le_l a b : isNaN a = false -> isNaN b = false -> num_le (Math_min a b) a.
Proof.
  intros A B; destruct (Math_min_cases a b) as [[-> _]|[[-> L]|[_ [N|N]]]];
    try assumption; try nan_absurd. apply num_le_refl, A.
Qed.

Lemma Math_min_le_r a b : isNaN a = false -> isNaN b = false -> num_le (Math_min a b) b.
Proof.
  intros A B; destruct (Math_min_cases a b) as [[-> L]|[[-> _]|[_ [N|N]]]];
    try assumption; try nan_absurd. apply num_le_refl, B.
Qed.

Lemma Math_max_not_nan a b : isNaN a = false -> isNaN b = false -> isNaN (Math_max a b) = false.
Proof. intros A B; exact (num_le_not_nan_r _ _ (Math_max_ge_l a b A B)). Qed.

Lemma Math_min_not_nan a b : isNaN a = false -> isNaN b = false -> isNaN (Math_min a b) = false.
Proof. intros A B; exact (num_le_not_nan_l _ _ (Math_min_le_l a b A B)). Qed.

Lemma Math_max_nan_inv a b :
  isNaN (Math_max a b) = false -> isNaN a = false /\ isNaN b = false.
Proof.
  destruct (Math_max_cases a b) as [[_ L]|[[_ L]|[-> _]]]; intros H.
  - split; [exact (num_le_not_nan_r _ _ L) | exact (num_le_not_nan_l _ _ L)].
  - split; [exact (num_le_not_nan_l _ _ L) | exact (num_le_not_nan_r _ _ L)].
  - discriminate H.
Qed.

Lemma Math_min_nan_inv a b :
  isNaN (Math_min a b) = false -> isNaN a = false /\ isNaN b = false.
Proof.
  destruct (Math_min_cases a b) as [[_ L]|[[_ L]|[-> _]]]; intros H.
  - split; [exact (num_le_not_nan_l _ _ L) | exact (num_le_not_nan_r _ _ L)].
  - split; [exact (num_le_not_nan_r _ _ L) | exact (num_le_not_nan_l _ _ L)].
  - discriminate H.
Qed.

(** A value already above the lower bound passes [Math.max] unchanged,
    up to [===]; likewise below the upper bound for [Math.min]. *)
Lemma Math_max_absorb lo x : num_le lo x -> num_eq (Math_max lo x) x.
Proof.
  intros L; apply num_eq_le; split.
  - apply Math_max_lub; [exact L | apply num_le_refl, (num_le_not_nan_r _ _ L)].
  - apply Math_max_ge_r; [exact (num_le_not_nan_l _ _ L) | exact (num_le_not_nan_r _ _ L)].
Qed.

Lemma Math_min_absorb hi x : num_le x hi -> num_eq (Math_min hi x) x.
Proof.
  intros L; apply num_eq_le; split.
  - apply Math_min_le_r; [exact (num_le_not_nan_r _ _ L) | exact (num_le_not_nan_l _ _ L)].
  - apply Math_min_glb; [exact L | apply num_le_refl, (num_le_not_nan_l _ _ L)].
Qed.

(** *** Clamping, written as in the source: [Math.max(lo, Math.min(hi, x))] *)

Lemma clamp_not_nan lo hi x :
  isNaN lo = false -> isNaN hi = false -> isNaN x = false ->
  isNaN (Math_max lo (Math_min hi x)) = false.
Proof. intros; apply Math_max_not_nan; [|apply Math_min_not_nan]; assumption. Qed.

Lemma clamp_lower lo hi x :
  isNaN lo = false -> isNaN hi = false -> isNaN x = false ->
  num_le lo (Math_max lo (Math_min hi x)).
Proof. intros; apply Math_max_ge_l; [|apply Math_min_not_nan]; assumption. Qed.

Lemma clamp_upper lo hi x :
  num_le lo hi -> isNaN x = false -> num_le (Math_max lo (Math_min hi x)) hi.
Proof.
  intros L X; apply Math_max_lub; [exact L|].
  apply Math_min_le_l; [exact (num_le_not_nan_r _ _ L) | exact X].
Qed.

Lemma clamp_keeps_lower lo hi x c :
  isNaN lo = false -> num_le c hi -> num_le c x ->
  num_le c (Math_max lo (Math_min hi x)).
Proof.
  intros N H X. apply num_le_trans with (Math_min hi x).
  - apply Math_min_glb; assumption.
  - apply Math_max_ge_r; [exact N|].
    apply Math_min_not_nan; [exact (num_le_not_nan_r _ _ H) | exact (num_le_not_nan_r _ _ X)].
Qed.

Lemma clamp_keeps_upper lo hi x c :
  isNaN hi = false -> num_le lo c -> num_le x c ->
  num_le (Math_max lo (Math_min hi x)) c.
Proof.
  intros N L X. apply Math_max_lub; [exact L|].
  apply num_le_trans with x; [|exact X].
  apply Math_min_le_r; [exact N | exact (num_le_not_nan_l _ _ X)].
Qed.

Lemma clamp_inside lo hi x :
  num_le lo x -> num_le x hi -> num_eq (Math_max lo (Math_min hi x)) x.
Proof.
  intros L H. pose proof (Math_min_absorb _ _ H) as E.
  apply num_eq_trans with (Math_min hi x); [|exact E].
  apply Math_max_absorb. apply num_eq_le in E. destruct E as [_ E].
  apply num_le_trans with x; assumption.
Qed.

(** *** The arithmetic facts used below *)

Local Open Scope js_scope.

Lemma sub_diag x : isFinite x = true -> x - x = S754_zero false.
Proof.
  destruct x as [[]|[]| |s m e]; try discriminate; intros _; try reflexivity.
  unfold sub, SFsub. rewrite Z.sub_diag. reflexivity.
Qed.

Lemma zero_div s w : isNonZeroFinite w = true -> exists s', S754_zero s / w = S754_zero s'.
Proof. destruct w; try discriminate; intros _; eexists; reflexivity. Qed.

Lemma add_zero x s : isNaN x = false -> num_eq (x + S754_zero s) x.
Proof.
  destruct x as [[]|[]| |sx m e]; try discriminate; intros _; destruct s;
    try reflexivity; apply num_eq_refl; reflexivity.
Qed.

(** A pointer that has not moved leaves the target at the start ratio. *)
Lemma add_zero_delta start x w :
  isNaN start = false -> isFinite x = true -> isNonZeroFinite w = true ->
  num_eq (start + (x - x) / w) start.
Proof.
  intros S X W. rewrite (sub_diag x X).
  destruct (zero_div false w W) as [s' ->]. apply add_zero, S.
Qed.

(** Rounding keeps the sign. *)
Lemma binary_round_aux_sign s m e l :
  match binary_round_aux prec emax s m e l with
  | S754_zero s' | S754_infinity s' | S754_finite s' _ _ => s' = s
  | S754_nan => True
  end.
Proof.
  unfold binary_round_aux.
  destruct (shr_fexp prec emax m e l) as [mrs' e'].
  destruct (shr_fexp prec emax _ e' loc_Exact) as [mrs'' e''].
  destruct (shr_m mrs''); [reflexivity| |exact I].
  destruct (Z.leb e'' (Z.sub emax prec)); reflexivity.
Qed.

Lemma div_nonneg a b :
  num_le lit_0 a -> num_lt lit_0 b -> isNaN (a / b) = false -> num_le lit_0 (a / b).
Proof.
  destruct a as [sa|sa| |sa ma ea], b as [sb|sb| |sb mb eb];
    intros A B C; try discriminate A; try discriminate B; try discriminate C;
    try (destruct sa); try (destruct sb);
    try discriminate A; try discriminate B; try reflexivity.
  revert C. unfold div, SFdiv.
  destruct (SFdiv_core_binary prec emax (Z.pos ma) ea (Z.pos mb) eb) as [[mz ez] lz].
  pose proof (binary_round_aux_sign (xorb false false) mz ez lz) as S.
  destruct (binary_round_aux prec emax (xorb false false) mz ez lz) as [s|s| |s m e];
    try discriminate; simpl in S; subst s; intros _; reflexivity.
Qed.

(** *** Finite operands never give NaN *)

Lemma shr_1_nonneg mrs : (0 <= shr_m mrs)%Z -> (0 <= shr_m (shr_1 mrs))%Z.
Proof.
  destruct mrs as [m r s]; destruct m as [|[p|p|]|[p|p|]]; simpl; intros; lia.
Qed.

Lemma iter_shr_1_nonneg p : forall mrs,
  (0 <= shr_m mrs)%Z -> (0 <= shr_m (iter_pos shr_1 p mrs))%Z.
Proof.
  induction p as [p IH|p IH|]; intros mrs H; simpl.
  - apply IH, IH, shr_1_nonneg, H.
  - apply IH, IH, H.
  - apply shr_1_nonneg, H.
Qed.

Lemma shr_fexp_nonneg m e l :
  (0 <= m)%Z -> (0 <= shr_m (fst (shr_fexp prec emax m e l)))%Z.
Proof.
  intros H. unfold shr_fexp, shr.
  assert (H0 : (0 <= shr_m (shr_record_of_loc m l))%Z) by (destruct l as [|[]]; exact H).
  destruct (Z.sub _ e); simpl; try exact H0. apply iter_shr_1_nonneg, H0.
Qed.

Lemma round_nearest_even_nonneg m l : (0 <= m)%Z -> (0 <= round_nearest_even m l)%Z.
Proof.
  intros H. destruct l as [|[]]; simpl; try lia. destruct (Z.even m); lia.
Qed.

Lemma binary_round_aux_not_nan s m e l :
  (0 <= m)%Z -> isNaN (binary_round_aux prec emax s m e l) = false.
Proof.
  intros H. unfold binary_round_aux.
  pose proof (shr_fexp_nonneg m e l H) as H1.
  destruct (shr_fexp prec emax m e l) as [mrs' e']. simpl in H1.
  pose proof (shr_fexp_nonneg _ e' loc_Exact
                (round_nearest_even_nonneg (shr_m mrs') (loc_of_shr_record mrs') H1)) as H2.
  destruct (shr_fexp prec emax _ e' loc_Exact) as [mrs'' e'']. simpl in H2.
  destruct (shr_m mrs''); [reflexivity| |lia].
  destruct (Z.leb e'' (Z.sub emax prec)); reflexivity.
Qed.

Lemma binary_normalize_not_nan m e sz : isNaN (binary_normalize prec emax m e sz) = false.
Proof.
  destruct m as [|p|p]; [reflexivity| |]; unfold binary_normalize, binary_round;
    destruct (shl_align p e _) as [mz ez]; apply binary_round_aux_not_nan; lia.
Qed.

Lemma sub_finite x y : isFinite x = true -> isFinite y = true -> isNaN (x - y) = false.
Proof.
  destruct x as [sx|sx| |sx mx ex], y as [sy|sy| |sy my ey]; try discriminate; intros _ _.
  - destruct sx, sy; reflexivity.
  - reflexivity.
  - reflexivity.
  - apply binary_normalize_not_nan.
Qed.

Lemma add_finite x y : isFinite x = true -> isNaN y = false -> isNaN (x + y) = false.
Proof.
  destruct x as [sx|sx| |sx mx ex], y as [sy|sy| |sy my ey]; try discriminate; intros _ _;
    try reflexivity.
  - destruct sx, sy; reflexivity.
  - apply binary_normalize_not_nan.
Qed.

Lemma div_by_finite x y : isNaN x = false -> isNonZeroFinite y = true -> isNaN (x / y) = false.
Proof.
  destruct x as [sx|sx| |sx mx ex], y as [sy|sy| |sy my ey]; try discriminate; intros _ _;
    try reflexivity.
  unfold div, SFdiv, SFdiv_core_binary.
  set (m' := match _ with Z.pos _ => _ | Z0 => _ | Z.neg _ => _ end).
  assert (M : (0 <= m')%Z).
  { subst m'. destruct (Z.sub (Z.sub ex ey) _); try lia. apply Z.shiftl_nonneg. lia. }
  pose proof (Z.div_pos m' (Z.pos my) M eq_refl) as Q. unfold Z.div in Q.
  destruct (Z.div_eucl m' (Z.pos my)) as [q r]. apply binary_round_aux_not_nan, Q.
Qed.

End JsOrder.

(* ================================================================== *)
(** ** Lists *)

Module ListFacts.

Lemma last_cons_default {A : Type} (l : list A) :
  forall x d : A, last (x :: l) d = last l x.
Proof.
  induction l as [|y l IH]; intros x d; [reflexivity|].
  change (last (x :: y :: l) d) with (last (y :: l) d).
  rewrite (IH y d), (IH y x); reflexivity.
Qed.

End ListFacts.

(* ================================================================== *)
(** ** Properties of [components/layout/ResizableSplitView.jsx] *)

Module JsxFacts.
Import JsNumber Dom Jsx.
Local Open Scope js_scope.

Lemma jsx_callOnSplitRatioChange_frame p v w :
  splitRatio (callOnSplitRatioChange p v w) = splitRatio w /\
  isDragging (callOnSplitRatioChange p v w) = isDragging w /\
  containerRef (callOnSplitRatioChange p v w) = containerRef w.
Proof. unfold callOnSplitRatioChange; destruct (onSplitRatioChange p); repeat split. Qed.

Lemma jsx_handleMouseMove_active p e w rect :
  isDragging w = true -> containerRef w = Some rect ->
  handleMouseMove p e w =
  Normal (callOnSplitRatioChange p (clampedRatio rect e)
            (setSplitRatio (clampedRatio rect e) w)).
Proof. intros D C; unfold handleMouseMove; rewrite D, C; reflexivity. Qed.

Lemma jsx_handleMouseMove_unmounted p e w :
  containerRef w = None -> handleMouseMove p e w = Normal w.
Proof.
  intros C; unfold handleMouseMove; rewrite C; simpl.
  rewrite orb_true_r; reflexivity.
Qed.

(** A run of pointer moves in an active session: the session stays
    active over the same container, and the ratio is the one of the last
    move, if there is one. *)
Lemma jsx_run_moves p es : forall w rect,
  isDragging w = true -> containerRef w = Some rect ->
  exists w',
    run p (map MouseMove es) w = Normal w' /\
    isDragging w' = true /\ containerRef w' = Some rect /\
    splitRatio w' = last (map (clampedRatio rect) es) (splitRatio w).
Proof.
  induction es as [|e es IH]; intros w rect D C.
  - exists w; repeat split; assumption.
  - cbn [map run step]. rewrite D, (jsx_handleMouseMove_active p e w rect D C).
    cbn [bind].
    set (v := clampedRatio rect e).
    destruct (jsx_callOnSplitRatioChange_frame p v (setSplitRatio v w)) as (F1 & F2 & F3).
    destruct (IH (callOnSplitRatioChange p v (setSplitRatio v w)) rect)
      as (w' & R & D' & C' & V).
    { rewrite F2; exact D. }
    { rewrite F3; exact C. }
    exists w'. repeat split; try assumption.
    rewrite V, F1. symmetry. apply (ListFacts.last_cons_default (map (clampedRatio rect) es)).
Qed.

(** C10.  In this component a drag update forgets the session: two
    updates with the same pointer X over the same container rectangle
    store the same ratio, [Math.max(0.2, Math.min(0.8, (clientX -
    rect.left) / rect.width))], whatever the ratios held before, the
    pointer positions of the two pointer-downs and the moves in between. *)
Theorem drag_update_is_memoryless :
  (forall p1 p2 w1 w2 rect e1 e2,
     isDragging w1 = true -> isDragging w2 = true ->
     containerRef w1 = Some rect -> containerRef w2 = Some rect ->
     clientX e1 = clientX e2 ->
     exists w1' w2',
       handleMouseMove p1 e1 w1 = Normal w1' /\
       handleMouseMove p2 e2 w2 = Normal w2' /\
       splitRatio w1' = clampedRatio rect e1 /\
       splitRatio w2' = splitRatio w1') /\
  (forall p1 p2 w1 w2 rect start1 start2 es1 es2 e1 e2,
     containerRef w1 = Some rect -> containerRef w2 = Some rect ->
     clientX e1 = clientX e2 ->
     exists w1' w2',
       run p1 (MouseDown start1 :: map MouseMove (es1 ++ [e1])) w1 = Normal w1' /\
       run p2 (MouseDown start2 :: map MouseMove (es2 ++ [e2])) w2 = Normal w2' /\
       splitRatio w1' = clampedRatio rect e1 /\
       splitRatio w2' = splitRatio w1').
Proof.
  assert (K : forall rect e1 e2,
             clientX e1 = clientX e2 -> clampedRatio rect e2 = clampedRatio rect e1)
    by (intros rect e1 e2 X; unfold clampedRatio; rewrite X; reflexivity).
  split.
  - intros p1 p2 w1 w2 rect e1 e2 D1 D2 C1 C2 X.
    rewrite (jsx_handleMouseMove_active p1 e1 w1 rect D1 C1),
            (jsx_handleMouseMove_active p2 e2 w2 rect D2 C2).
    do 2 eexists. split; [reflexivity|]. split; [reflexivity|].
    destruct (jsx_callOnSplitRatioChange_frame p1 (clampedRatio rect e1)
                (setSplitRatio (clampedRatio rect e1) w1)) as (F1 & _).
    destruct (jsx_callOnSplitRatioChange_frame p2 (clampedRatio rect e2)
                (setSplitRatio (clampedRatio rect e2) w2)) as (F2 & _).
    rewrite F1, F2. split; [reflexivity | apply K, X].
  - intros p1 p2 w1 w2 rect start1 start2 es1 es2 e1 e2 C1 C2 X. cbn [run step bind].
    destruct (jsx_run_moves p1 (es1 ++ [e1]) (handleMouseDown start1 w1) rect eq_refl C1)
      as (w1' & R1 & _ & _ & V1).
    destruct (jsx_run_moves p2 (es2 ++ [e2]) (handleMouseDown start2 w2) rect eq_refl C2)
      as (w2' & R2 & _ & _ & V2).
    exists w1', w2'. split; [exact R1|]. split; [exact R2|].
    rewrite map_app in V1, V2. cbn [map] in V1, V2. rewrite last_last in V1, V2.
    split; [exact V1 | rewrite V1, V2; apply K, X].
Qed.

Lemma drag_update_is_memoryless_witness :
  exists w1' w2',
    handleMouseMove appProps (mouseAt 700)
      (handleMouseDown (mouseAt 600) (setContainer (Some (rectAt 0 1000)) (mount appProps)))
      = Normal w1' /\
    handleMouseMove appProps (mouseAt 700)
      (setSplitRatio lit_0_2
         (handleMouseDown (mouseAt 300) (setContainer (Some (rectAt 0 1000)) (mount appProps))))
      = Normal w2' /\
    splitRatio w1' = dec 7 10 /\ splitRatio w2' = dec 7 10.
Proof.
  destruct (proj1 drag_update_is_memoryless appProps appProps
              (handleMouseDown (mouseAt 600)
                 (setContainer (Some (rectAt 0 1000)) (mount appProps)))
              (setSplitRatio lit_0_2
                 (handleMouseDown (mouseAt 300)
                    (setContainer (Some (rectAt 0 1000)) (mount appProps))))
              (rectAt 0 1000) (mouseAt 700) (mouseAt 700)
              eq_refl eq_refl eq_refl eq_refl eq_refl)
    as (w1' & w2' & R1 & R2 & V1 & V2).
  exists w1', w2'. split; [exact R1|]. split; [exact R2|].
  split; [rewrite V1 | rewrite V2, V1]; vm_compute; reflexivity.
Defined.

(** In this component the bounds are the constants 0.2 and 0.8: a drag
    update whose raw ratio is a number stores a ratio within them. *)
Lemma drag_update_within_fixed_bounds :
  forall p w rect e,
    isDragging w = true -> containerRef w = Some rect ->
    isNaN ((clientX e - rect_left rect) / rect_width rect) = false ->
    exists w',
      handleMouseMove p e w = Normal w' /\
      within lit_0_2 lit_0_8 (splitRatio w').
Proof.
  intros p w rect e D C X. eexists. split; [apply jsx_handleMouseMove_active; eassumption|].
  destruct (jsx_callOnSplitRatioChange_frame p (clampedRatio rect e)
              (setSplitRatio (clampedRatio rect e) w)) as (F & _).
  rewrite F. cbn [splitRatio setSplitRatio]. unfold clampedRatio. split.
  - apply JsOrder.clamp_lower; [reflexivity | reflexivity | exact X].
  - apply JsOrder.clamp_upper; [reflexivity | exact X].
Qed.

Lemma drag_update_within_fixed_bounds_witness :
  exists w',
    handleMouseMove appProps (mouseAt 950)
      (handleMouseDown (mouseAt 600) (setContainer (Some (rectAt 0 1000)) (mount appProps)))
      = Normal w' /\
    within lit_0_2 lit_0_8 (splitRatio w').
Proof.
  apply (drag_update_within_fixed_bounds appProps
           (handleMouseDown (mouseAt 600) (setContainer (Some (rectAt 0 1000)) (mount appProps)))
           (rectAt 0 1000) (mouseAt 950) eq_refl eq_refl).
  vm_compute. reflexivity.
Defined.

End JsxFacts.

(* ================================================================== *)
(** ** Properties of [ResizableSplitView.tsx] *)

Module TsxFacts.
Import JsNumber Dom Tsx.
Local Open Scope js_scope.

(* ------------------------------------------------------------------ *)
(** *** Basic facts about the handlers *)

Lemma callOnSplitRatioChange_frame p v w :
  splitRatio (callOnSplitRatioChange p v w) = splitRatio w /\
  isDragging (callOnSplitRatioChange p v w) = isDragging w /\
  isLeftCollapsed (callOnSplitRatioChange p v w) = isLeftCollapsed w /\
  isRightCollapsed (callOnSplitRatioChange p v w) = isRightCollapsed w /\
  containerRef (callOnSplitRatioChange p v w) = containerRef w /\
  dragStartX (callOnSplitRatioChange p v w) = dragStartX w /\
  dragStartRatio (callOnSplitRatioChange p v w) = dragStartRatio w.
Proof. unfold callOnSplitRatioChange; destruct (onSplitRatioChange p); repeat split. Qed.

Lemma callOnSplitRatioChange_reported p v w :
  reported (callOnSplitRatioChange p v w) =
  reported w ++ (if onSplitRatioChange p then [v] else []).
Proof.
  unfold callOnSplitRatioChange; destruct (onSplitRatioChange p); simpl.
  - reflexivity.
  - symmetry; apply app_nil_r.
Qed.

Lemma handleMouseMove_active p e w rect :
  isDragging w = true -> containerRef w = Some rect ->
  handleMouseMove p e w =
  Normal (callOnSplitRatioChange p (dragResult p w (rect_width rect) e)
            (setSplitRatio (dragResult p w (rect_width rect) e) w)).
Proof. intros D C; unfold handleMouseMove; rewrite D, C; reflexivity. Qed.

Lemma handleMouseMove_idle p e w :
  isDragging w = false -> handleMouseMove p e w = Normal w.
Proof. intros D; unfold handleMouseMove; rewrite D; reflexivity. Qed.

Lemma handleMouseMove_unmounted p e w :
  containerRef w = None -> handleMouseMove p e w = Normal w.
Proof.
  intros C; unfold handleMouseMove; rewrite C; simpl.
  rewrite orb_true_r; reflexivity.
Qed.

(** No exception escapes [handleMouseMove]: the guard covers the only
    dereference of [containerRef.current]. *)
Lemma handleMouseMove_returns p e w : exists w', handleMouseMove p e w = Normal w'.
Proof.
  destruct (isDragging w) eqn:D.
  - destruct (containerRef w) as [rect|] eqn:C.
    + eexists; apply handleMouseMove_active; eassumption.
    + eexists; apply handleMouseMove_unmounted; assumption.
  - eexists; apply handleMouseMove_idle; assumption.
Qed.

Lemma rawRatio_sameSession w w' e cw :
  sameSession w w' -> rawRatio w' e cw = rawRatio w e cw.
Proof.
  intros (_ & _ & X & R); unfold rawRatio, deltaRatio; rewrite X, R; reflexivity.
Qed.

Lemma dragResult_sameSession p w w' cw e :
  sameSession w w' -> dragResult p w' cw e = dragResult p w cw e.
Proof. intros S; unfold dragResult; rewrite (rawRatio_sameSession _ _ _ _ S); reflexivity. Qed.

(** A run of pointer moves inside one drag session over a container that
    stays put: every move stores its own result and reports it, and the
    session is untouched. *)
Lemma run_moves p es : forall w rect,
  isDragging w = true -> containerRef w = Some rect ->
  exists w',
    run p (map MouseMove es) w = Normal w' /\
    sameSession w w' /\
    splitRatio w' = last (map (dragResult p w (rect_width rect)) es) (splitRatio w) /\
    reported w' =
      reported w ++ (if onSplitRatioChange p
                     then map (dragResult p w (rect_width rect)) es else []) /\
    isLeftCollapsed w' = isLeftCollapsed w /\
    isRightCollapsed w' = isRightCollapsed w.
Proof.
  induction es as [|e es IH]; intros w rect D C.
  - exists w; simpl. repeat split.
    destruct (onSplitRatioChange p); symmetry; apply app_nil_r.
  - cbn [map run step]. rewrite D, (handleMouseMove_active p e w rect D C).
    cbn [bind].
    set (v := dragResult p w (rect_width rect) e).
    set (w1 := callOnSplitRatioChange p v (setSplitRatio v w)).
    destruct (callOnSplitRatioChange_frame p v (setSplitRatio v w))
      as (F1 & F2 & F3 & F4 & F5 & F6 & F7).
    fold w1 in F1, F2, F3, F4, F5, F6, F7. simpl in F1, F2, F3, F4, F5, F6, F7.
    assert (S1 : sameSession w w1) by (repeat split; assumption).
    destruct (IH w1 rect) as (w' & R & S & V & L & CL & CR).
    { rewrite F2; exact D. }
    { rewrite F5; exact C. }
    exists w'. split; [exact R|]. split; [|split; [|split; [|split]]].
    + destruct S as (S2 & S3 & S4 & S5). destruct S1 as (T2 & T3 & T4 & T5).
      repeat split; etransitivity; eassumption.
    + rewrite V, F1, ListFacts.last_cons_default. f_equal.
      apply map_ext; intros a; apply dragResult_sameSession; exact S1.
    + rewrite L. unfold w1. rewrite callOnSplitRatioChange_reported.
      cbn [reported setSplitRatio]. rewrite <- app_assoc. f_equal.
      destruct (onSplitRatioChange p); [|reflexivity].
      cbn [app]. f_equal. apply map_ext; intros a; apply dragResult_sameSession; exact S1.
    + rewrite CL, F3; reflexivity.
    + rewrite CR, F4; reflexivity.
Qed.

Lemma run_app p l1 : forall l2 w,
  run p (l1 ++ l2) w = bind (run p l1 w) (run p l2).
Proof.
  induction l1 as [|ev l1 IH]; intros l2 w; [reflexivity|].
  cbn [app run]. destruct (step p ev w) as [w1|err]; cbn [bind]; [apply IH | reflexivity].
Qed.

(* ------------------------------------------------------------------ *)
(** *** Drag updates *)

Lemma dragResult_spec p w cw e :
  dragResult p w cw e =
  spec_UpdateDrag (minLeftRatio p cw) (minRightRatio p cw)
                  (maxLeftRatio p cw) (maxRightRatio p cw)
                  (dragStartRatio w) (dragStartX w) cw (clientX e).
Proof. reflexivity. Qed.

(** C1.  While a drag session is active, a pointer move stores the ratio
    of the drag start plus [(pointerX - startX) / containerWidth], clamped
    first to [[minLeftFrac, 1 - minRightFrac]] and then to
    [[1 - maxRightFrac, maxLeftFrac]], where the start values are those of
    the pointer-down; from ratio 0.6, a move of +200px in a container
    1000px wide has the raw target 0.8; and without an active session a
    pointer move changes nothing. *)
Theorem handleMouseMove_is_UpdateDrag :
  (forall p e w rect,
     isDragging w = true -> containerRef w = Some rect ->
     exists w',
       handleMouseMove p e w = Normal w' /\
       splitRatio w' =
         spec_UpdateDrag
           (minLeftRatio p (rect_width rect)) (minRightRatio p (rect_width rect))
           (maxLeftRatio p (rect_width rect)) (maxRightRatio p (rect_width rect))
           (dragStartRatio w) (dragStartX w) (rect_width rect) (clientX e)) /\
  (forall p w0 rect e0 es e,
     containerRef w0 = Some rect ->
     exists w',
       run p (MouseDown e0 :: map MouseMove (es ++ [e])) w0 = Normal w' /\
       splitRatio w' =
         spec_UpdateDrag
           (minLeftRatio p (rect_width rect)) (minRightRatio p (rect_width rect))
           (maxLeftRatio p (rect_width rect)) (maxRightRatio p (rect_width rect))
           (splitRatio w0) (clientX e0) (rect_width rect) (clientX e)) /\
  (forall w,
     splitRatio w = dec 6 10 ->
     rawRatio (handleMouseDown (mouseAt 600) w) (mouseAt 800) (of_Z 1000) = dec 8 10) /\
  (forall p e w,
     isDragging w = false ->
     handleMouseMove p e w = Normal w /\ step p (MouseMove e) w = Normal w).
Proof.
  split; [|split; [|split]].
  - intros p e w rect D C. eexists; split.
    + apply handleMouseMove_active; eassumption.
    + destruct (callOnSplitRatioChange_frame p (dragResult p w (rect_width rect) e)
                  (setSplitRatio (dragResult p w (rect_width rect) e) w)) as (F & _).
      rewrite F. apply dragResult_spec.
  - intros p w0 rect e0 es e C. cbn [run step bind].
    destruct (run_moves p (es ++ [e]) (handleMouseDown e0 w0) rect eq_refl C)
      as (w' & R & _ & V & _).
    exists w'. split; [exact R|].
    rewrite V, map_app. cbn [map]. rewrite last_last. apply dragResult_spec.
  - intros w R. unfold rawRatio, deltaRatio. cbn [dragStartRatio dragStartX handleMouseDown
      setBodyStyle setDragStart setIsDragging clientX mouseAt].
    rewrite R. vm_compute. reflexivity.
  - intros p e w D. split.
    + apply handleMouseMove_idle, D.
    + cbn [step]. rewrite D. reflexivity.
Qed.

Lemma handleMouseMove_is_UpdateDrag_witness :
  exists w',
    handleMouseMove appProps (mouseAt 800)
      (handleMouseDown (mouseAt 600) (appWorld 1000)) = Normal w' /\
    splitRatio w' = dec 7 10.
Proof.
  destruct (proj1 handleMouseMove_is_UpdateDrag appProps (mouseAt 800)
              (handleMouseDown (mouseAt 600) (appWorld 1000)) (rectOfWidth 1000)
              eq_refl eq_refl) as (w' & H & R).
  exists w'. split; [exact H|]. rewrite R. vm_compute. reflexivity.
Defined.

(** In this component the result of an update does depend on the
    session: the same pointer X over the same container gives 0.7 after
    a pointer-down at 600px and 0.65 after a pointer-down at 650px. *)
Remark drag_update_depends_on_drag_start :
  finalRatio (run appProps [MouseDown (mouseAt 600); MouseMove (mouseAt 700)]
                (appWorld 1000)) = Some (dec 7 10) /\
  finalRatio (run appProps [MouseDown (mouseAt 650); MouseMove (mouseAt 700)]
                (appWorld 1000)) = Some (dec 65 100).
Proof. vm_compute. split; reflexivity. Qed.

(** The raw target is a number whenever the ratio and the pointer
    position of the drag start and the pointer position of the move are
    finite and the container's width is finite and not zero. *)
Lemma rawRatio_is_number :
  forall w e cw,
    isFinite (dragStartRatio w) = true -> isFinite (dragStartX w) = true ->
    isFinite (clientX e) = true -> isNonZeroFinite cw = true ->
    isNaN (rawRatio w e cw) = false.
Proof.
  intros w e cw R X0 X W. unfold rawRatio, deltaRatio.
  apply JsOrder.add_finite; [exact R|].
  apply JsOrder.div_by_finite; [|exact W].
  apply JsOrder.sub_finite; assumption.
Qed.

Lemma rawRatio_is_number_witness :
  isNaN (rawRatio (handleMouseDown (mouseAt 600) (appWorld 1000)) (mouseAt 800) (of_Z 1000))
  = false.
Proof.
  exact (rawRatio_is_number (handleMouseDown (mouseAt 600) (appWorld 1000)) (mouseAt 800)
           (of_Z 1000) eq_refl eq_refl eq_refl eq_refl).
Defined.

(* ------------------------------------------------------------------ *)
(** *** The bounds of a drag update *)

(** What a consistent configuration says about the four fractions. *)
Lemma consistent_bounds p cw :
  num_le (ratioLowerBound p cw) (ratioUpperBound p cw) ->
  num_le (minLeftRatio p cw) (lit_1 - minRightRatio p cw) /\
  num_le (minLeftRatio p cw) (maxLeftRatio p cw) /\
  num_le (lit_1 - maxRightRatio p cw) (lit_1 - minRightRatio p cw) /\
  num_le (lit_1 - maxRightRatio p cw) (maxLeftRatio p cw).
Proof.
  unfold ratioLowerBound, ratioUpperBound.
  set (a := minLeftRatio p cw). set (b := lit_1 - minRightRatio p cw).
  set (c := lit_1 - maxRightRatio p cw). set (d := maxLeftRatio p cw).
  intros H.
  destruct (JsOrder.Math_max_nan_inv a c (JsOrder.num_le_not_nan_l _ _ H)) as [Na Nc].
  destruct (JsOrder.Math_min_nan_inv b d (JsOrder.num_le_not_nan_r _ _ H)) as [Nb Nd].
  pose proof (JsOrder.Math_max_ge_l a c Na Nc) as A.
  pose proof (JsOrder.Math_max_ge_r a c Na Nc) as C.
  pose proof (JsOrder.Math_min_le_l b d Nb Nd) as B.
  pose proof (JsOrder.Math_min_le_r b d Nb Nd) as D.
  repeat split;
    (eapply JsOrder.num_le_trans; [eassumption|];
     eapply JsOrder.num_le_trans; eassumption).
Qed.

Lemma applyConstraints_within p cw x :
  num_le (ratioLowerBound p cw) (ratioUpperBound p cw) ->
  isNaN x = false ->
  within (ratioLowerBound p cw) (ratioUpperBound p cw) (applyConstraints p cw x).
Proof.
  intros H X. destruct (consistent_bounds p cw H) as (AB & AD & CB & CD).
  unfold applyConstraints, applyMaxConstraints, applyMinConstraints,
    ratioLowerBound, ratioUpperBound.
  set (a := minLeftRatio p cw) in *. set (b := lit_1 - minRightRatio p cw) in *.
  set (c := lit_1 - maxRightRatio p cw) in *. set (d := maxLeftRatio p cw) in *.
  pose proof (JsOrder.num_le_not_nan_l _ _ AB) as Na.
  pose proof (JsOrder.num_le_not_nan_r _ _ AB) as Nb.
  pose proof (JsOrder.num_le_not_nan_l _ _ CD) as Nc.
  pose proof (JsOrder.num_le_not_nan_r _ _ CD) as Nd.
  set (r1 := Math_max a (Math_min b x)).
  assert (N1 : isNaN r1 = false) by (apply JsOrder.clamp_not_nan; assumption).
  assert (L1 : num_le a r1) by (apply JsOrder.clamp_lower; assumption).
  assert (U1 : num_le r1 b) by (apply JsOrder.clamp_upper; assumption).
  split.
  - apply JsOrder.Math_max_lub.
    + apply JsOrder.clamp_keeps_lower; assumption.
    + apply JsOrder.clamp_lower; assumption.
  - apply JsOrder.Math_min_glb.
    + apply JsOrder.clamp_keeps_upper; assumption.
    + apply JsOrder.clamp_upper; assumption.
Qed.

(** C2, as the code has it.  With a configuration whose bounds are
    consistent (the lower bound does not exceed the upper one) and a raw
    target that is a number, the ratio after any sequence of drag updates
    lies within [[max(minLeftFrac, 1 - maxRightFrac), min(1 - minRightFrac,
    maxLeftFrac)]]; with a container 1000px wide, minimum widths of 300px
    and no maximum, the range is [[0.3, 0.7]] and a drag aiming at 0.9
    ends at 0.7. *)
Theorem drag_sequence_within_bounds :
  (forall p w rect es e,
     isDragging w = true -> containerRef w = Some rect ->
     num_le (ratioLowerBound p (rect_width rect)) (ratioUpperBound p (rect_width rect)) ->
     isNaN (rawRatio w e (rect_width rect)) = false ->
     exists w',
       run p (map MouseMove (es ++ [e])) w = Normal w' /\
       within (ratioLowerBound p (rect_width rect))
              (ratioUpperBound p (rect_width rect)) (splitRatio w')) /\
  (ratioLowerBound noMaxProps (of_Z 1000) = dec 3 10 /\
   ratioUpperBound noMaxProps (of_Z 1000) = dec 7 10 /\
   rawRatio (handleMouseDown (mouseAt 500)
               (setContainer (Some (rectOfWidth 1000)) (mount noMaxProps)))
            (mouseAt 900) (of_Z 1000) = dec 9 10 /\
   finalRatio (run noMaxProps
                 [Layout (Some (rectOfWidth 1000)); MouseDown (mouseAt 500);
                  MouseMove (mouseAt 900)]
                 (mount noMaxProps)) = Some (dec 7 10)).
Proof.
  split.
  - intros p w rect es e D C H X.
    destruct (run_moves p (es ++ [e]) w rect D C) as (w' & R & _ & V & _).
    exists w'. split; [exact R|].
    rewrite V, map_app. cbn [map]. rewrite last_last.
    apply applyConstraints_within; assumption.
  - vm_compute. repeat split.
Qed.

Lemma drag_sequence_within_bounds_witness :
  exists w',
    run appProps (map MouseMove ([mouseAt 650] ++ [mouseAt 800]))
      (handleMouseDown (mouseAt 600) (appWorld 1000)) = Normal w' /\
    within (dec 3 10) (dec 7 10) (splitRatio w').
Proof.
  destruct (proj1 drag_sequence_within_bounds appProps
              (handleMouseDown (mouseAt 600) (appWorld 1000)) (rectOfWidth 1000)
              [mouseAt 650] (mouseAt 800) eq_refl eq_refl) as (w' & R & W).
  - vm_compute. reflexivity.
  - vm_compute. reflexivity.
  - exists w'. split; [exact R|]. exact W.
Defined.

(** C2 as stated fails: in a container 500px wide the default minimum
    widths give the fractions 0.6 and 0.6, the interval is [[0.6, 0.4]],
    and a drag update stores 0.6.  And where the bounds are consistent
    ([[0.3, 0.7]] at 1000px), a raw target that is NaN is stored as NaN. *)
Lemma narrow_container_leaves_bounds :
  (finalRatio (run (defaultProps true)
                 [Layout (Some (rectOfWidth 500)); MouseDown (mouseAt 250);
                  MouseMove (mouseAt 260)]
                 (mount (defaultProps true))) = Some (dec 6 10) /\
   ratioLowerBound (defaultProps true) (of_Z 500) = dec 6 10 /\
   ratioUpperBound (defaultProps true) (of_Z 500) = dec 4 10 /\
   ~ within (ratioLowerBound (defaultProps true) (of_Z 500))
            (ratioUpperBound (defaultProps true) (of_Z 500)) (dec 6 10)) /\
  (finalRatio (run nanProps
                 [Layout (Some (rectOfWidth 1000)); MouseDown (mouseAt 500);
                  MouseMove (mouseAt 600)]
                 (mount nanProps)) = Some nan /\
   ~ within (ratioLowerBound nanProps (of_Z 1000))
            (ratioUpperBound nanProps (of_Z 1000)) nan).
Proof.
  repeat match goal with |- _ /\ _ => split end;
    try (vm_compute; reflexivity);
    intros [L U]; vm_compute in L, U; discriminate.
Qed.

(* ------------------------------------------------------------------ *)
(** *** When the container is measured *)

(** C3, as the code has it.  [handleMouseMove] calls
    [getBoundingClientRect()] itself, so every drag update divides by the
    width the container has at that update: whatever the layout was when
    the drag started, a move after the container took the rectangle
    [rect] stores the result computed with [rect]'s width.  The same
    holds in the [.jsx] component. *)
Theorem drag_update_measures_current_width :
  (forall p w0 e0 rect e,
   exists w',
     run p [MouseDown e0; Layout (Some rect); MouseMove e] w0 = Normal w' /\
     splitRatio w' =
       applyConstraints p (rect_width rect)
         (splitRatio w0 + (clientX e - clientX e0) / rect_width rect)) /\
  (forall p w0 e0 rect e,
   exists w',
     Jsx.run p [Jsx.MouseDown e0; Jsx.Layout (Some rect); Jsx.MouseMove e] w0
       = Normal w' /\
     Jsx.splitRatio w' = Jsx.clampedRatio rect e).
Proof.
  split.
  - intros p w0 e0 rect e. cbn [run step bind].
    set (w1 := setContainer (Some rect) (handleMouseDown e0 w0)).
    assert (D : isDragging w1 = true) by reflexivity.
    assert (C : containerRef w1 = Some rect) by reflexivity.
    rewrite D, (handleMouseMove_active p e w1 rect D C). cbn [bind].
    eexists; split; [reflexivity|].
    destruct (callOnSplitRatioChange_frame p (dragResult p w1 (rect_width rect) e)
                (setSplitRatio (dragResult p w1 (rect_width rect) e) w1)) as (F & _).
    rewrite F. reflexivity.
  - intros p w0 e0 rect e. cbn [Jsx.run Jsx.step bind].
    set (w1 := Jsx.setContainer (Some rect) (Jsx.handleMouseDown e0 w0)).
    assert (D : Jsx.isDragging w1 = true) by reflexivity.
    assert (C : Jsx.containerRef w1 = Some rect) by reflexivity.
    rewrite D, (JsxFacts.jsx_handleMouseMove_active p e w1 rect D C). cbn [bind].
    eexists; split; [reflexivity|].
    destruct (JsxFacts.jsx_callOnSplitRatioChange_frame p (Jsx.clampedRatio rect e)
                (Jsx.setSplitRatio (Jsx.clampedRatio rect e) w1)) as (F & _).
    rewrite F. reflexivity.
Qed.

(** C3 as stated fails: the same drag from 600px to 700px ends at 0.7 in
    a container that stays 1000px wide and at 0.65 when the container
    grows to 2000px between the pointer-down and the move. *)
Lemma resize_mid_drag_changes_result :
  finalRatio (run appProps
                [Layout (Some (rectOfWidth 1000)); MouseDown (mouseAt 600);
                 MouseMove (mouseAt 700)]
                (mount appProps)) = Some (dec 7 10) /\
  finalRatio (run appProps
                [Layout (Some (rectOfWidth 1000)); MouseDown (mouseAt 600);
                 Layout (Some (rectOfWidth 2000)); MouseMove (mouseAt 700)]
                (mount appProps)) = Some (dec 65 100) /\
  (dec 65 100 === dec 7 10) = false.
Proof. vm_compute. repeat split. Qed.

(* ------------------------------------------------------------------ *)
(** *** A drag that ends where it started *)

Lemma within_bounds_consistent p cw x :
  within (ratioLowerBound p cw) (ratioUpperBound p cw) x ->
  num_le (ratioLowerBound p cw) (ratioUpperBound p cw).
Proof. intros [L U]; eapply JsOrder.num_le_trans; eassumption. Qed.

Lemma applyConstraints_inside p cw x :
  within (ratioLowerBound p cw) (ratioUpperBound p cw) x ->
  num_eq (applyConstraints p cw x) x.
Proof.
  intros W. pose proof (within_bounds_consistent p cw x W) as H.
  destruct (consistent_bounds p cw H) as (AB & AD & CB & CD).
  destruct W as [L U]. revert L U.
  unfold applyConstraints, applyMaxConstraints, applyMinConstraints,
    ratioLowerBound, ratioUpperBound.
  set (a := minLeftRatio p cw) in *. set (b := lit_1 - minRightRatio p cw) in *.
  set (c := lit_1 - maxRightRatio p cw) in *. set (d := maxLeftRatio p cw) in *.
  intros L U.
  pose proof (JsOrder.num_le_not_nan_l _ _ AB) as Na.
  pose proof (JsOrder.num_le_not_nan_r _ _ AB) as Nb.
  pose proof (JsOrder.num_le_not_nan_l _ _ CD) as Nc.
  pose proof (JsOrder.num_le_not_nan_r _ _ CD) as Nd.
  assert (AX : num_le a x)
    by (eapply JsOrder.num_le_trans; [apply (JsOrder.Math_max_ge_l a c Na Nc)|exact L]).
  assert (CX : num_le c x)
    by (eapply JsOrder.num_le_trans; [apply (JsOrder.Math_max_ge_r a c Na Nc)|exact L]).
  assert (XB : num_le x b)
    by (eapply JsOrder.num_le_trans; [exact U|apply (JsOrder.Math_min_le_l b d Nb Nd)]).
  assert (XD : num_le x d)
    by (eapply JsOrder.num_le_trans; [exact U|apply (JsOrder.Math_min_le_r b d Nb Nd)]).
  pose proof (JsOrder.clamp_inside a b x AX XB) as E1.
  set (r1 := Math_max a (Math_min b x)) in *.
  destruct (proj1 (JsOrder.num_eq_le r1 x) E1) as [R1X XR1].
  eapply JsOrder.num_eq_trans; [|exact E1].
  apply JsOrder.clamp_inside; eapply JsOrder.num_le_trans; eassumption.
Qed.

Lemma within_num_eq lo hi x y : num_eq x y -> within lo hi y -> within lo hi x.
Proof.
  intros E [L U]. apply JsOrder.num_eq_le in E. destruct E as [XY YX].
  split; eapply JsOrder.num_le_trans; eassumption.
Qed.

(** C4, as the code has it.  When the ratio at the pointer-down already
    lies within the bounds that hold for the container's width (a finite
    width other than zero, a finite pointer position), a drag whose last
    update has the pointer back at its starting X leaves the ratio equal
    ([===]) to the ratio before the drag, also after the pointer-up; and a
    drag without any update leaves the ratio as it is. *)
Theorem zero_net_movement_keeps_ratio :
  (forall p w0 rect e0 es,
     containerRef w0 = Some rect ->
     isFinite (clientX e0) = true ->
     isNonZeroFinite (rect_width rect) = true ->
     within (ratioLowerBound p (rect_width rect))
            (ratioUpperBound p (rect_width rect)) (splitRatio w0) ->
     exists w',
       run p (MouseDown e0 :: map MouseMove (es ++ [e0]) ++ [MouseUp]) w0 = Normal w' /\
       isDragging w' = false /\
       num_eq (splitRatio w') (splitRatio w0)) /\
  (forall p w0 e0,
     exists w',
       run p [MouseDown e0; MouseUp] w0 = Normal w' /\
       isDragging w' = false /\
       splitRatio w' = splitRatio w0).
Proof.
  split.
  - intros p w0 rect e0 es C X W B. cbn [run step bind].
    set (w1 := handleMouseDown e0 w0).
    destruct (run_moves p (es ++ [e0]) w1 rect eq_refl C) as (w' & R & (S & _) & V & _).
    rewrite run_app, R. cbn [bind run step]. rewrite S. cbn [isDragging w1 handleMouseDown
      setBodyStyle setDragStart setIsDragging bind].
    eexists. split; [reflexivity|]. split; [reflexivity|].
    cbn [splitRatio handleMouseUp setBodyStyle setIsDragging].
    rewrite V, map_app. cbn [map]. rewrite last_last.
    assert (E : num_eq (rawRatio w1 e0 (rect_width rect)) (splitRatio w0)).
    { unfold rawRatio, deltaRatio. cbn [w1 dragStartRatio dragStartX handleMouseDown
        setBodyStyle setDragStart setIsDragging].
      apply JsOrder.add_zero_delta; try assumption.
      destruct B as [L _]. exact (JsOrder.num_le_not_nan_r _ _ L). }
    unfold dragResult. eapply JsOrder.num_eq_trans; [|exact E].
    apply applyConstraints_inside. eapply within_num_eq; eassumption.
  - intros p w0 e0. cbn [run step bind]. eexists. split; [reflexivity|].
    split; reflexivity.
Qed.

Lemma zero_net_movement_keeps_ratio_witness :
  exists w',
    run appProps
      (MouseDown (mouseAt 600) :: map MouseMove ([mouseAt 650] ++ [mouseAt 600]) ++ [MouseUp])
      (appWorld 1000) = Normal w' /\
    isDragging w' = false /\
    num_eq (splitRatio w') (dec 6 10).
Proof.
  destruct (proj1 zero_net_movement_keeps_ratio appProps (appWorld 1000) (rectOfWidth 1000)
              (mouseAt 600) [mouseAt 650] eq_refl eq_refl eq_refl) as (w' & R & D & E).
  - vm_compute. split; reflexivity.
  - exists w'. split; [exact R |]. split; [exact D | exact E].
Defined.

(** C4 as stated fails: the [App] starts the component at 0.6; in a
    container 600px wide the minimum widths allow only 0.5, and a
    pointer-down followed by a move at the same X stores 0.5. *)
Lemma zero_movement_changes_ratio :
  splitRatio (appWorld 600) = dec 6 10 /\
  finalRatio (run appProps [MouseDown (mouseAt 360); MouseMove (mouseAt 360)]
                (appWorld 600)) = Some (dec 5 10) /\
  (dec 5 10 === dec 6 10) = false.
Proof. vm_compute. repeat split. Qed.

(* ------------------------------------------------------------------ *)
(** *** A container that cannot be measured *)

(** C5, as the code has it.  A drag update issued while the container is
    not mounted ([containerRef.current] is [null]) is ignored: the handler
    returns, and the ratio, the calls made to the parent and everything
    else are as before.  The same holds in the [.jsx] component. *)
Theorem unmounted_update_is_ignored :
  (forall p e w,
     containerRef w = None ->
     handleMouseMove p e w = Normal w /\ step p (MouseMove e) w = Normal w) /\
  (forall p e w,
     Jsx.containerRef w = None ->
     Jsx.handleMouseMove p e w = Normal w /\ Jsx.step p (Jsx.MouseMove e) w = Normal w).
Proof.
  split.
  - intros p e w C. pose proof (handleMouseMove_unmounted p e w C) as H.
    split; [exact H|]. cbn [step]. rewrite H. destruct (isDragging w); reflexivity.
  - intros p e w C. pose proof (JsxFacts.jsx_handleMouseMove_unmounted p e w C) as H.
    split; [exact H|]. cbn [Jsx.step]. rewrite H. destruct (Jsx.isDragging w); reflexivity.
Qed.

Lemma unmounted_update_is_ignored_witness :
  handleMouseMove appProps (mouseAt 800) (handleMouseDown (mouseAt 600) (mount appProps))
  = Normal (handleMouseDown (mouseAt 600) (mount appProps)).
Proof.
  exact (proj1 (proj1 unmounted_update_is_ignored appProps (mouseAt 800)
                  (handleMouseDown (mouseAt 600) (mount appProps)) eq_refl)).
Defined.

(** C5 as stated fails for a mounted container of width zero: the update
    is not ignored.  From ratio 0.6, a move of 10px stores 0.8 and reports
    it to the parent; a move of 0px stores NaN. *)
Lemma zero_width_update_is_not_ignored :
  splitRatio (appWorld 0) = dec 6 10 /\
  finalRatio (run appProps [MouseDown (mouseAt 360); MouseMove (mouseAt 370)]
                (appWorld 0)) = Some (dec 8 10) /\
  finalReported (run appProps [MouseDown (mouseAt 360); MouseMove (mouseAt 370)]
                   (appWorld 0)) = Some [dec 8 10] /\
  finalRatio (run appProps [MouseDown (mouseAt 360); MouseMove (mouseAt 360)]
                (appWorld 0)) = Some nan.
Proof. vm_compute. repeat split. Qed.

(* ------------------------------------------------------------------ *)
(** *** Collapse and reset *)

(** C6.  Toggling an expanded side stores the sentinel (0.02 for the
    left side, 0.98 for the right) and marks the side collapsed; toggling
    a collapsed side stores 0.5 and marks it expanded; so two toggles of
    the expanded left side end at 0.5 whatever the ratio was before, and
    not at that ratio. *)
Theorem toggle_collapse_round_trip :
  (forall w, isLeftCollapsed w = false ->
     splitRatio (toggleLeftPanel w) = lit_0_02 /\
     isLeftCollapsed (toggleLeftPanel w) = true) /\
  (forall w, isLeftCollapsed w = true ->
     splitRatio (toggleLeftPanel w) = lit_0_5 /\
     isLeftCollapsed (toggleLeftPanel w) = false) /\
  (forall w, isRightCollapsed w = false ->
     splitRatio (toggleRightPanel w) = lit_0_98 /\
     isRightCollapsed (toggleRightPanel w) = true) /\
  (forall w, isRightCollapsed w = true ->
     splitRatio (toggleRightPanel w) = lit_0_5 /\
     isRightCollapsed (toggleRightPanel w) = false) /\
  (forall p w, isLeftCollapsed w = false ->
     exists w',
       run p [ClickToggleLeft; ClickToggleLeft] w = Normal w' /\
       splitRatio w' = lit_0_5 /\ isLeftCollapsed w' = false) /\
  (isLeftCollapsed (appWorld 1000) = false /\
   splitRatio (appWorld 1000) = dec 6 10 /\
   finalRatio (run appProps [ClickToggleLeft; ClickToggleLeft] (appWorld 1000))
     = Some lit_0_5 /\
   (lit_0_5 === dec 6 10) = false).
Proof.
  repeat match goal with |- _ /\ _ => split end;
    try (intros w H; unfold toggleLeftPanel, toggleRightPanel; rewrite H; split; reflexivity);
    try (vm_compute; reflexivity).
  intros p w H. cbn [run step bind]. eexists; split; [reflexivity|].
  assert (E : toggleLeftPanel w = setIsLeftCollapsed true (setSplitRatio lit_0_02 w))
    by (unfold toggleLeftPanel; rewrite H; reflexivity).
  rewrite E. split; reflexivity.
Qed.

Lemma toggle_collapse_round_trip_witness :
  exists w',
    run appProps [ClickToggleLeft; ClickToggleLeft] (appWorld 1000) = Normal w' /\
    splitRatio w' = lit_0_5 /\ isLeftCollapsed w' = false.
Proof.
  exact (proj1 (proj2 (proj2 (proj2 (proj2 toggle_collapse_round_trip))))
           appProps (appWorld 1000) eq_refl).
Defined.

(** A reset stores 0.5 whatever the state was and reports it to the
    parent, if there is a callback. *)
Lemma resetSplit_yields_half :
  forall p w,
    splitRatio (resetSplit p w) = lit_0_5 /\
    reported (resetSplit p w) = reported w ++ (if onSplitRatioChange p then [lit_0_5] else []).
Proof.
  intros p w. unfold resetSplit. split.
  - destruct (callOnSplitRatioChange_frame p lit_0_5 (setSplitRatio lit_0_5 w)) as (F & _).
    rewrite F. reflexivity.
  - rewrite callOnSplitRatioChange_reported. reflexivity.
Qed.

(** The collapse toggles change the ratio without calling the parent. *)
Lemma toggle_does_not_notify :
  forall w,
    reported (toggleLeftPanel w) = reported w /\
    reported (toggleRightPanel w) = reported w.
Proof.
  intros w. unfold toggleLeftPanel, toggleRightPanel.
  destruct (isLeftCollapsed w), (isRightCollapsed w); split; reflexivity.
Qed.

(* ------------------------------------------------------------------ *)
(** *** The ratio over the lifecycle *)

(** With a non-negative minimum left width, a container of positive
    width and a maximum left width given as a fraction, consistent bounds
    lie in the unit interval. *)
Lemma bounds_in_unit_interval p cw :
  num_le lit_0 (minLeftWidth p) -> num_lt lit_0 cw -> num_le (maxLeftWidth p) lit_1 ->
  num_le (ratioLowerBound p cw) (ratioUpperBound p cw) ->
  num_le lit_0 (ratioLowerBound p cw) /\ num_le (ratioUpperBound p cw) lit_1.
Proof.
  intros M W X H. destruct (consistent_bounds p cw H) as (AB & AD & CB & CD).
  pose proof (JsOrder.num_le_not_nan_l _ _ AB) as Na.
  pose proof (JsOrder.num_le_not_nan_r _ _ AB) as Nb.
  pose proof (JsOrder.num_le_not_nan_l _ _ CD) as Nc.
  pose proof (JsOrder.num_le_not_nan_r _ _ CD) as Nd.
  split.
  - apply JsOrder.num_le_trans with (minLeftRatio p cw).
    + apply JsOrder.div_nonneg; assumption.
    + apply JsOrder.Math_max_ge_l; assumption.
  - apply JsOrder.num_le_trans with (maxLeftRatio p cw).
    + apply JsOrder.Math_min_le_r; assumption.
    + unfold maxLeftRatio. unfold num_le in X. rewrite X. exact X.
Qed.

(** C7, as the code has it.  The ratio starts as the supplied prop,
    unclamped; a reset stores 0.5 and a collapse toggle 0.02, 0.98 or
    0.5, all in [[0, 1]] but stored without regard to the bounds; a drag
    update with consistent bounds and a numeric raw target stores a ratio
    within the bounds, and within [[0, 1]] when the minimum left width is
    non-negative, the container's width positive and the maximum left
    width a fraction. *)
Theorem ratio_after_each_operation :
  (forall p, splitRatio (mount p) = initialSplitRatio p) /\
  (forall p w, splitRatio (resetSplit p w) = lit_0_5) /\
  (forall w, splitRatio (toggleLeftPanel w)
             = if isLeftCollapsed w then lit_0_5 else lit_0_02) /\
  (forall w, splitRatio (toggleRightPanel w)
             = if isRightCollapsed w then lit_0_5 else lit_0_98) /\
  (within lit_0 lit_1 lit_0_5 /\ within lit_0 lit_1 lit_0_02 /\
   within lit_0 lit_1 lit_0_98) /\
  (forall p w rect e,
     isDragging w = true -> containerRef w = Some rect ->
     num_le (ratioLowerBound p (rect_width rect)) (ratioUpperBound p (rect_width rect)) ->
     isNaN (rawRatio w e (rect_width rect)) = false ->
     exists w',
       handleMouseMove p e w = Normal w' /\
       within (ratioLowerBound p (rect_width rect))
              (ratioUpperBound p (rect_width rect)) (splitRatio w') /\
       (num_le lit_0 (minLeftWidth p) -> num_lt lit_0 (rect_width rect) ->
        num_le (maxLeftWidth p) lit_1 ->
        within lit_0 lit_1 (splitRatio w'))).
Proof.
  split; [reflexivity|]. split.
  { intros p w. unfold resetSplit.
    destruct (callOnSplitRatioChange_frame p lit_0_5 (setSplitRatio lit_0_5 w)) as (F & _).
    rewrite F. reflexivity. }
  split; [intros w; unfold toggleLeftPanel; destruct (isLeftCollapsed w); reflexivity|].
  split; [intros w; unfold toggleRightPanel; destruct (isRightCollapsed w); reflexivity|].
  split; [vm_compute; repeat split|].
  intros p w rect e D C H X.
  eexists. split; [apply handleMouseMove_active; eassumption|].
  destruct (callOnSplitRatioChange_frame p (dragResult p w (rect_width rect) e)
              (setSplitRatio (dragResult p w (rect_width rect) e) w)) as (F & _).
  rewrite F. cbn [splitRatio setSplitRatio].
  pose proof (applyConstraints_within p (rect_width rect) _ H X) as [L U].
  split; [split; assumption|].
  intros M W F1. destruct (bounds_in_unit_interval p (rect_width rect) M W F1 H) as [L0 U1].
  split; eapply JsOrder.num_le_trans; eassumption.
Qed.

Lemma ratio_after_each_operation_witness :
  exists w',
    handleMouseMove appProps (mouseAt 900)
      (handleMouseDown (mouseAt 600) (appWorld 1000)) = Normal w' /\
    within (dec 3 10) (dec 7 10) (splitRatio w') /\
    within lit_0 lit_1 (splitRatio w').
Proof.
  destruct (proj2 (proj2 (proj2 (proj2 (proj2 ratio_after_each_operation))))
              appProps (handleMouseDown (mouseAt 600) (appWorld 1000)) (rectOfWidth 1000)
              (mouseAt 900) eq_refl eq_refl) as (w' & R & W & U).
  - vm_compute. reflexivity.
  - vm_compute. reflexivity.
  - exists w'. split; [exact R|]. split; [exact W|].
    apply U; vm_compute; reflexivity.
Defined.

(** C7 as stated fails: right after initialization the [App]'s 0.6 is
    outside the bounds of a container 600px wide; a prop of 1.5 is stored
    as it is; and collapsing the left side stores 0.02, below the lower
    bound 0.3 of a container 1000px wide. *)
Lemma ratio_outside_bounds_is_reachable :
  (splitRatio (appWorld 600) = dec 6 10 /\
   ~ within (ratioLowerBound appProps (of_Z 600))
            (ratioUpperBound appProps (of_Z 600)) (dec 6 10)) /\
  (splitRatio (mount oversizedProps) = dec 15 10 /\
   ~ within lit_0 lit_1 (dec 15 10)) /\
  (finalRatio (run appProps [ClickToggleLeft] (appWorld 1000)) = Some lit_0_02 /\
   ratioLowerBound appProps (of_Z 1000) = dec 3 10 /\
   ~ within (ratioLowerBound appProps (of_Z 1000))
            (ratioUpperBound appProps (of_Z 1000)) lit_0_02).
Proof.
  repeat match goal with |- _ /\ _ => split end;
    try (vm_compute; reflexivity);
    intros [L U]; vm_compute in L, U; discriminate.
Qed.

(* ------------------------------------------------------------------ *)
(** *** Live resizing and the end of a drag *)

(** C8.  With a callback, an active session and a mounted container,
    every pointer move stores the clamped ratio and calls the parent
    with that same value, while the session stays active: after a run of
    moves the parent has received one call per move, each with the ratio
    that move stored.  A move in the [.jsx] component does the same. *)
Theorem every_move_reports_stored_ratio :
  (forall p w rect e,
     onSplitRatioChange p = true ->
     isDragging w = true -> containerRef w = Some rect ->
     exists w',
       handleMouseMove p e w = Normal w' /\
       splitRatio w' = dragResult p w (rect_width rect) e /\
       reported w' = reported w ++ [splitRatio w'] /\
       isDragging w' = true) /\
  (forall p w rect es,
     onSplitRatioChange p = true ->
     isDragging w = true -> containerRef w = Some rect ->
     exists w',
       run p (map MouseMove es) w = Normal w' /\
       isDragging w' = true /\
       splitRatio w' = last (map (dragResult p w (rect_width rect)) es) (splitRatio w) /\
       reported w' = reported w ++ map (dragResult p w (rect_width rect)) es) /\
  (forall p w rect e,
     Jsx.onSplitRatioChange p = true ->
     Jsx.isDragging w = true -> Jsx.containerRef w = Some rect ->
     exists w',
       Jsx.handleMouseMove p e w = Normal w' /\
       Jsx.splitRatio w' = Jsx.clampedRatio rect e /\
       Jsx.reported w' = Jsx.reported w ++ [Jsx.splitRatio w'] /\
       Jsx.isDragging w' = true).
Proof.
  split; [|split].
  - intros p w rect e K D C. eexists. split; [apply handleMouseMove_active; eassumption|].
    unfold callOnSplitRatioChange. rewrite K. cbn. repeat split. exact D.
  - intros p w rect es K D C.
    destruct (run_moves p es w rect D C) as (w' & R & (S & _) & V & L & _).
    exists w'. rewrite K in L. repeat split; try assumption. rewrite S; exact D.
  - intros p w rect e K D C. eexists.
    split; [apply JsxFacts.jsx_handleMouseMove_active; eassumption|].
    unfold Jsx.callOnSplitRatioChange. rewrite K. cbn. repeat split. exact D.
Qed.

Lemma every_move_reports_stored_ratio_witness :
  exists w',
    run appProps (map MouseMove [mouseAt 650; mouseAt 800])
      (handleMouseDown (mouseAt 600) (appWorld 1000)) = Normal w' /\
    splitRatio w' = dec 7 10 /\
    reported w' = [dec 65 100; dec 7 10].
Proof.
  destruct (proj1 (proj2 every_move_reports_stored_ratio) appProps
              (handleMouseDown (mouseAt 600) (appWorld 1000)) (rectOfWidth 1000)
              [mouseAt 650; mouseAt 800] eq_refl eq_refl eq_refl) as (w' & R & _ & V & L).
  exists w'. split; [exact R|]. split.
  - rewrite V. vm_compute. reflexivity.
  - rewrite L. vm_compute. reflexivity.
Defined.

(** C9.  The pointer-up only ends the session: [isDragging] becomes
    false and the body styles are restored, while the ratio, the collapse
    flags and the list of calls made to the parent stay as they were.
    The pointer-up of the [.jsx] component changes [isDragging] alone. *)
Theorem handleMouseUp_only_clears_session :
  (forall p w,
     (isDragging (handleMouseUp w) = false /\
      splitRatio (handleMouseUp w) = splitRatio w /\
      reported (handleMouseUp w) = reported w /\
      isLeftCollapsed (handleMouseUp w) = isLeftCollapsed w /\
      isRightCollapsed (handleMouseUp w) = isRightCollapsed w /\
      bodyCursor (handleMouseUp w) = EmptyString /\
      bodyUserSelect (handleMouseUp w) = EmptyString) /\
     (exists w',
        step p MouseUp w = Normal w' /\
        isDragging w' = false /\
        splitRatio w' = splitRatio w /\
        reported w' = reported w)) /\
  (forall p w,
     (Jsx.isDragging (Jsx.handleMouseUp w) = false /\
      Jsx.splitRatio (Jsx.handleMouseUp w) = Jsx.splitRatio w /\
      Jsx.reported (Jsx.handleMouseUp w) = Jsx.reported w) /\
     (exists w',
        Jsx.step p Jsx.MouseUp w = Normal w' /\
        Jsx.isDragging w' = false /\
        Jsx.splitRatio w' = Jsx.splitRatio w /\
        Jsx.reported w' = Jsx.reported w)).
Proof.
  split.
  - intros p w. split; [repeat split|].
    cbn [step]. destruct (isDragging w) eqn:D.
    + eexists; split; [reflexivity|]. repeat split.
    + exists w; repeat split. exact D.
  - intros p w. split; [repeat split|].
    cbn [Jsx.step]. destruct (Jsx.isDragging w) eqn:D.
    + eexists; split; [reflexivity|]. repeat split.
    + exists w; repeat split. exact D.
Qed.

End TsxFacts.

(* ================================================================== *)
(** ** The life of one [ResizableSplitView.tsx] instance *)

Module TsxLifecycle.
Import JsNumber Dom Tsx TsxRender.
Local Open Scope js_scope.

(** What [handleMouseMove] leaves alone. *)
Lemma handleMouseMove_frame p e w w' :
  handleMouseMove p e w = Normal w' ->
  isDragging w' = isDragging w /\
  isLeftCollapsed w' = isLeftCollapsed w /\
  isRightCollapsed w' = isRightCollapsed w /\
  containerRef w' = containerRef w /\
  dragStartX w' = dragStartX w /\
  dragStartRatio w' = dragStartRatio w /\
  bodyCursor w' = bodyCursor w /\
  bodyUserSelect w' = bodyUserSelect w.
Proof.
  unfold handleMouseMove.
  destruct (negb (isDragging w) || negb (truthy (containerRef w))).
  - intros [= <-]. repeat split.
  - destruct (containerRef w) as [rect|] eqn:C; cbn [getBoundingClientRect bind];
      [|discriminate].
    intros [= <-]. unfold callOnSplitRatioChange.
    destruct (onSplitRatioChange p); repeat split; cbn; exact C.
Qed.

(** No handler lets an exception escape. *)
Lemma step_returns p ev w : exists w', step p ev w = Normal w'.
Proof.
  destruct ev; cbn [step]; try (eexists; reflexivity);
    destruct (isDragging w); try (eexists; reflexivity).
  apply TsxFacts.handleMouseMove_returns.
Qed.




Lemma step_keeps_left_flag p ev w w' :
  ev <> ClickToggleLeft -> step p ev w = Normal w' ->
  isLeftCollapsed w' = isLeftCollapsed w.
Proof.
  intros N. destruct ev; cbn [step]; try congruence.
  - intros [= <-]. reflexivity.
  - destruct (isDragging w).
    + intros E. apply (handleMouseMove_frame _ _ _ _ E).
    + intros [= <-]. reflexivity.
  - destruct (isDragging w); intros [= <-]; reflexivity.
  - intros [= <-]. unfold resetSplit, callOnSplitRatioChange.
    destruct (onSplitRatioChange p); reflexivity.
  - intros [= <-]. unfold toggleRightPanel. destruct (isRightCollapsed w); reflexivity.
  - intros [= <-]. reflexivity.
Qed.

Lemma step_keeps_right_flag p ev w w' :
  ev <> ClickToggleRight -> step p ev w = Normal w' ->
  isRightCollapsed w' = isRightCollapsed w.
Proof.
  intros N. destruct ev; cbn [step]; try congruence.
  - intros [= <-]. reflexivity.
  - destruct (isDragging w).
    + intros E. apply (handleMouseMove_frame _ _ _ _ E).
    + intros [= <-]. reflexivity.
  - destruct (isDragging w); intros [= <-]; reflexivity.
  - intros [= <-]. unfold resetSplit, callOnSplitRatioChange.
    destruct (onSplitRatioChange p); reflexivity.
  - intros [= <-]. unfold toggleLeftPanel. destruct (isLeftCollapsed w); reflexivity.
  - intros [= <-]. reflexivity.
Qed.

Lemma run_keeps_left_flag p evs : forall w,
  Forall (fun ev => ev <> ClickToggleLeft) evs ->
  exists w', run p evs w = Normal w' /\ isLeftCollapsed w' = isLeftCollapsed w.
Proof.
  induction evs as [|ev evs IH]; intros w F.
  - exists w. split; reflexivity.
  - inversion F as [|? ? N F']; subst. cbn [run].
    destruct (step_returns p ev w) as [w1 E]. rewrite E. cbn [bind].
    destruct (IH w1 F') as (w' & R & L). exists w'. split; [exact R|].
    rewrite L. exact (step_keeps_left_flag p ev w w1 N E).
Qed.

Lemma run_keeps_right_flag p evs : forall w,
  Forall (fun ev => ev <> ClickToggleRight) evs ->
  exists w', run p evs w = Normal w' /\ isRightCollapsed w' = isRightCollapsed w.
Proof.
  induction evs as [|ev evs IH]; intros w F.
  - exists w. split; reflexivity.
  - inversion F as [|? ? N F']; subst. cbn [run].
    destruct (step_returns p ev w) as [w1 E]. rewrite E. cbn [bind].
    destruct (IH w1 F') as (w' & R & L). exists w'. split; [exact R|].
    rewrite L. exact (step_keeps_right_flag p ev w w1 N E).
Qed.

(** Only a pane's own toggle changes its collapse flag.  A collapsed
    left pane therefore stays 2% wide, with its title and content hidden,
    through every sequence of drags, pointer-ups, resets, layouts and
    clicks on the other toggle; and likewise on the right. *)
Theorem collapsed_pane_stays_collapsed :
  (forall p evs w,
     isLeftCollapsed w = true ->
     Forall (fun ev => ev <> ClickToggleLeft) evs ->
     exists w',
       run p evs w = Normal w' /\
       leftWidth w' = Percent lit_2 /\ leftContentHidden w' = true) /\
  (forall p evs w,
     isRightCollapsed w = true ->
     Forall (fun ev => ev <> ClickToggleRight) evs ->
     exists w',
       run p evs w = Normal w' /\
       rightWidth w' = Percent lit_2 /\ rightContentHidden w' = true).
Proof.
  split.
  - intros p evs w C F. destruct (run_keeps_left_flag p evs w F) as (w' & R & L).
    exists w'. split; [exact R|]. unfold leftWidth, leftContentHidden.
    rewrite L, C. split; reflexivity.
  - intros p evs w C F. destruct (run_keeps_right_flag p evs w F) as (w' & R & L).
    exists w'. split; [exact R|]. unfold rightWidth, rightContentHidden.
    rewrite L, C. split; reflexivity.
Qed.

Lemma collapsed_pane_stays_collapsed_witness :
  exists w',
    run appProps
      [MouseDown (mouseAt 20); MouseMove (mouseAt 500); MouseUp; ClickReset]
      (toggleLeftPanel (appWorld 1000)) = Normal w' /\
    leftWidth w' = Percent lit_2 /\ leftContentHidden w' = true.
Proof.
  apply (proj1 collapsed_pane_stays_collapsed appProps
           [MouseDown (mouseAt 20); MouseMove (mouseAt 500); MouseUp; ClickReset]
           (toggleLeftPanel (appWorld 1000)) eq_refl).
  repeat constructor; discriminate.
Defined.

(** How the collapse buttons lay the panes out.  From a view with both
    panes expanded: collapsing the left pane gives 2% and 98%, collapsing
    the right pane 98% and 2%; collapsing one and then the other leaves
    both panes 2% wide; and a reset after collapsing the left pane stores
    0.5 but leaves the left pane at 2%, beside a right pane of 50%. *)
Theorem collapse_layout :
  forall p w,
    isLeftCollapsed w = false -> isRightCollapsed w = false ->
    (leftWidth (toggleLeftPanel w) = Percent lit_2 /\
     rightWidth (toggleLeftPanel w) = Percent lit_98) /\
    (leftWidth (toggleRightPanel w) = Percent lit_98 /\
     rightWidth (toggleRightPanel w) = Percent lit_2) /\
    (leftWidth (toggleRightPanel (toggleLeftPanel w)) = Percent lit_2 /\
     rightWidth (toggleRightPanel (toggleLeftPanel w)) = Percent lit_2) /\
    (splitRatio (resetSplit p (toggleLeftPanel w)) = lit_0_5 /\
     leftWidth (resetSplit p (toggleLeftPanel w)) = Percent lit_2 /\
     rightWidth (resetSplit p (toggleLeftPanel w)) = Percent lit_50).
Proof.
  intros p w L R.
  assert (EL : toggleLeftPanel w = setIsLeftCollapsed true (setSplitRatio lit_0_02 w))
    by (unfold toggleLeftPanel; rewrite L; reflexivity).
  assert (ER : toggleRightPanel w = setIsRightCollapsed true (setSplitRatio lit_0_98 w))
    by (unfold toggleRightPanel; rewrite R; reflexivity).
  rewrite EL, ER. unfold resetSplit, callOnSplitRatioChange, toggleRightPanel,
    leftWidth, rightWidth.
  destruct (onSplitRatioChange p); cbn; rewrite ?L, ?R; cbn; repeat split.
Qed.

Lemma collapse_layout_witness :
  leftWidth (toggleLeftPanel (appWorld 1000)) = Percent lit_2 /\
  rightWidth (toggleLeftPanel (appWorld 1000)) = Percent lit_98.
Proof.
  exact (proj1 (collapse_layout appProps (appWorld 1000) eq_refl eq_refl)).
Defined.

(** A session that starts from a ratio within the bounds and ends with
    the pointer back at the X of its pointer-down leaves that ratio. *)
Lemma session_back_at_start p w0 rect e0 es :
  containerRef w0 = Some rect ->
  isFinite (clientX e0) = true ->
  isNonZeroFinite (rect_width rect) = true ->
  within (ratioLowerBound p (rect_width rect))
         (ratioUpperBound p (rect_width rect)) (splitRatio w0) ->
  exists w',
    run p (MouseDown e0 :: map MouseMove (es ++ [e0]) ++ [MouseUp]) w0 = Normal w' /\
    num_eq (splitRatio w') (splitRatio w0).
Proof.
  intros C X W B. cbn [run step bind].
  set (w1 := handleMouseDown e0 w0).
  destruct (TsxFacts.run_moves p (es ++ [e0]) w1 rect eq_refl C)
    as (w' & R & (S & _) & V & _).
  rewrite TsxFacts.run_app, R. cbn [bind run step]. rewrite S.
  cbn [isDragging w1 handleMouseDown setBodyStyle setDragStart setIsDragging bind].
  eexists. split; [reflexivity|].
  cbn [splitRatio handleMouseUp setBodyStyle setIsDragging].
  rewrite V, map_app. cbn [map]. rewrite last_last.
  assert (E : num_eq (rawRatio w1 e0 (rect_width rect)) (splitRatio w0)).
  { unfold rawRatio, deltaRatio. cbn [w1 dragStartRatio dragStartX handleMouseDown
      setBodyStyle setDragStart setIsDragging].
    apply JsOrder.add_zero_delta; try assumption.
    destruct B as [L _]. exact (JsOrder.num_le_not_nan_r _ _ L). }
  unfold dragResult. eapply JsOrder.num_eq_trans; [|exact E].
  apply TsxFacts.applyConstraints_inside. eapply TsxFacts.within_num_eq; eassumption.
Qed.

(** The result of a drag is stable.  With consistent bounds, the ratio
    that a numeric drag update stores passes the constraints unchanged
    ([===]); so after the pointer-up a later drag over the same container
    that ends with the pointer back at the X of its own pointer-down
    leaves exactly the ratio the first drag stored. *)
Theorem drag_result_is_stable :
  forall p w rect e e0 es,
    isDragging w = true -> containerRef w = Some rect ->
    num_le (ratioLowerBound p (rect_width rect)) (ratioUpperBound p (rect_width rect)) ->
    isNaN (rawRatio w e (rect_width rect)) = false ->
    isFinite (clientX e0) = true ->
    isNonZeroFinite (rect_width rect) = true ->
    num_eq (applyConstraints p (rect_width rect) (dragResult p w (rect_width rect) e))
           (dragResult p w (rect_width rect) e) /\
    exists w',
      run p ([MouseMove e; MouseUp]
             ++ MouseDown e0 :: map MouseMove (es ++ [e0]) ++ [MouseUp]) w = Normal w' /\
      isDragging w' = false /\
      num_eq (splitRatio w') (dragResult p w (rect_width rect) e).
Proof.
  intros p w rect e e0 es D C H X F W.
  pose proof (TsxFacts.applyConstraints_within p (rect_width rect) _ H X) as B.
  fold (dragResult p w (rect_width rect) e) in B.
  split; [apply TsxFacts.applyConstraints_inside, B|].
  rewrite TsxFacts.run_app. cbn [run step bind].
  rewrite D, (TsxFacts.handleMouseMove_active p e w rect D C). cbn [bind].
  set (v := dragResult p w (rect_width rect) e) in *.
  set (w1 := callOnSplitRatioChange p v (setSplitRatio v w)).
  destruct (TsxFacts.callOnSplitRatioChange_frame p v (setSplitRatio v w))
    as (F1 & F2 & _ & _ & F5 & _).
  fold w1 in F1, F2, F5. cbn in F1, F2, F5.
  rewrite F2, D. cbn [bind].
  set (w2 := handleMouseUp w1).
  assert (C2 : containerRef w2 = Some rect) by (cbn; rewrite F5; exact C).
  assert (R2 : splitRatio w2 = v) by (cbn; exact F1).
  destruct (session_back_at_start p w2 rect e0 es C2 F W) as (w' & R & E).
  { rewrite R2. exact B. }
  exists w'. split; [exact R|]. split.
  - revert R. cbn [run step bind].
    destruct (TsxFacts.run_moves p (es ++ [e0]) (handleMouseDown e0 w2) rect eq_refl C2)
      as (w3 & R3 & (S3 & _) & _).
    rewrite TsxFacts.run_app, R3. cbn [bind run step]. rewrite S3.
    cbn [isDragging handleMouseDown setBodyStyle setDragStart setIsDragging bind].
    intros [= <-]. reflexivity.
  - rewrite <- R2. exact E.
Qed.

Lemma drag_result_is_stable_witness :
  exists w',
    run appProps
      ([MouseMove (mouseAt 900); MouseUp]
       ++ MouseDown (mouseAt 300) :: map MouseMove ([mouseAt 100] ++ [mouseAt 300]) ++ [MouseUp])
      (handleMouseDown (mouseAt 600) (appWorld 1000)) = Normal w' /\
    isDragging w' = false /\
    num_eq (splitRatio w') (dec 7 10).
Proof.
  destruct (drag_result_is_stable appProps (handleMouseDown (mouseAt 600) (appWorld 1000))
              (rectOfWidth 1000) (mouseAt 900) (mouseAt 300) [mouseAt 100]
              eq_refl eq_refl) as (_ & w' & R & D & E).
  - vm_compute. reflexivity.
  - vm_compute. reflexivity.
  - reflexivity.
  - reflexivity.
  - exists w'. split; [exact R|]. split; [exact D | exact E].
Defined.

End TsxLifecycle.

(* ================================================================== *)
(** ** Properties of the [App] *)

Module AppFacts.
Import JsNumber Dom App.
Local Open Scope js_scope.

Lemma skipn_length_app {A : Type} (l l' : list A) : skipn (List.length l) (l ++ l') = l'.
Proof.
  rewrite skipn_app, skipn_all, Nat.sub_diag. reflexivity.
Qed.

Lemma deliver_nothing l vs : deliver l l vs = vs.
Proof. unfold deliver. rewrite skipn_all. reflexivity. Qed.

Lemma deliver_one l ratio vs : deliver l (l ++ [ratio]) vs = onSplitRatioChange ratio vs.
Proof. unfold deliver. rewrite skipn_length_app. reflexivity. Qed.


Lemma changeView_holdsRatio v view s :
  holdsRatio v s -> holdsRatio v (render (handleViewChange view (viewState s)) s).
Proof.
  intros [R C]. split; [exact R|]. cbn [splitView render activeView handleViewChange].
  destruct (isSplit view); [|exact I].
  destruct (splitView s) as [w|]; [exact C|].
  cbn. exact R.
Qed.

Lemma run_navigation v navs : forall s,
  Forall (fun ev => isNavigation ev = true) navs ->
  holdsRatio v s ->
  exists s', run navs s = Normal s' /\ holdsRatio v s'.
Proof.
  induction navs as [|ev navs IH]; intros s F H.
  - exists s. split; [reflexivity | exact H].
  - inversion F as [|? ? F1 F2]; subst.
    destruct ev as [view| |ev']; [| |discriminate F1];
      cbn [run step bind]; apply IH; try exact F2; apply changeView_holdsRatio, H.
Qed.

Lemma shell_run_app l1 : forall l2 s, run (l1 ++ l2) s = bind (run l1 s) (run l2).
Proof.
  induction l1 as [|ev l1 IH]; intros l2 s; [reflexivity|].
  cbn [app run]. destruct (step ev s) as [s1|err]; cbn [bind]; [apply IH | reflexivity].
Qed.

Lemma changeView_split_mounts v s :
  holdsRatio v s ->
  exists w',
    splitView (render (handleViewChange split (viewState s)) s) = Some w' /\
    Tsx.splitRatio w' = v /\
    splitRatio (viewState (render (handleViewChange split (viewState s)) s)) = v.
Proof.
  intros [R C]. cbn [splitView render activeView handleViewChange isSplit viewState splitRatio].
  destruct (splitView s) as [w|].
  - exists w. repeat split; assumption.
  - eexists. split; [reflexivity|]. cbn. split; exact R.
Qed.

(** The ratio of a drag survives leaving the split view.  A drag update
    reports its result to the [App], which stores it; after the
    pointer-up, whatever view buttons and hotkeys the user presses, the
    split view that is on screen when the user returns to [split] shows
    that result: it is the instance that stayed, or a new one mounted
    from the stored ratio. *)
Theorem split_ratio_survives_view_changes :
  forall s w rect e navs,
    splitView s = Some w ->
    Tsx.isDragging w = true -> Tsx.containerRef w = Some rect ->
    Forall (fun ev => isNavigation ev = true) navs ->
    exists s' w',
      run ([SplitViewEvent (Tsx.MouseMove e); SplitViewEvent Tsx.MouseUp]
           ++ navs ++ [ChangeView split]) s = Normal s' /\
      splitView s' = Some w' /\
      Tsx.splitRatio w' =
        Tsx.dragResult (splitViewProps (viewState s)) w (rect_width rect) e /\
      splitRatio (viewState s') =
        Tsx.dragResult (splitViewProps (viewState s)) w (rect_width rect) e.
Proof.
  intros s w rect e navs S D C F.
  set (v := Tsx.dragResult (splitViewProps (viewState s)) w (rect_width rect) e).
  rewrite shell_run_app. cbn [run step bind]. rewrite S. cbn [Tsx.step]. rewrite D.
  rewrite (TsxFacts.handleMouseMove_active _ e w rect D C). cbn [bind]. fold v.
  cbn [Tsx.callOnSplitRatioChange splitViewProps Tsx.onSplitRatioChange Tsx.reported
       Tsx.setSplitRatio splitView Tsx.step Tsx.isDragging bind viewState].
  rewrite D. cbn [bind]. rewrite deliver_one.
  cbn [Tsx.reported Tsx.handleMouseUp Tsx.setBodyStyle Tsx.setIsDragging].
  rewrite deliver_nothing.
  match goal with |- context [run (navs ++ [ChangeView split]) ?x] =>
    set (s2 := x) end.
  assert (H2 : holdsRatio v s2).
  { split; reflexivity. }
  rewrite shell_run_app.
  destruct (run_navigation v navs s2 F H2) as (s3 & R3 & H3).
  rewrite R3. cbn [bind map run step].
  destruct (changeView_split_mounts v s3 H3) as (w' & M & M1 & M4).
  eexists. exists w'. split; [reflexivity|]. repeat split; assumption.
Qed.

Lemma split_ratio_survives_view_changes_witness :
  exists s' w',
    run ([SplitViewEvent (Tsx.MouseMove (Tsx.mouseAt 650)); SplitViewEvent Tsx.MouseUp]
         ++ [ChangeView transcript; HotkeyToggleSplit; HotkeyToggleSplit; ChangeView video]
         ++ [ChangeView split]) (shellAt 1000) = Normal s' /\
    splitView s' = Some w' /\
    Tsx.splitRatio w' = dec 65 100 /\
    splitRatio (viewState s') = dec 65 100.
Proof.
  destruct (split_ratio_survives_view_changes (shellAt 1000)
              (Tsx.handleMouseDown (Tsx.mouseAt 600) (Tsx.appWorld 1000))
              (Tsx.rectOfWidth 1000) (Tsx.mouseAt 650)
              [ChangeView transcript; HotkeyToggleSplit; HotkeyToggleSplit; ChangeView video]
              eq_refl eq_refl eq_refl) as (s' & w' & R & S & V1 & V2).
  - repeat constructor.
  - exists s', w'. split; [exact R|]. split; [exact S|].
    split; [rewrite V1 | rewrite V2]; vm_compute; reflexivity.
Defined.





(* ------------------------------------------------------------------ *)
(** *** The playback timer *)

Lemma add_finite_r x y : isNaN x = false -> isFinite y = true -> isNaN (x + y) = false.
Proof.
  destruct x as [sx|sx| |sx mx ex], y as [sy|sy| |sy my ey]; try discriminate; intros _ _;
    try reflexivity.
  - destruct sx, sy; reflexivity.
  - apply JsOrder.binary_normalize_not_nan.
Qed.

Lemma tick_stays_before_end s :
  num_le (currentTime s) (duration s) ->
  num_le (currentTime (tick s)) (duration (tick s)) /\ duration (tick s) = duration s.
Proof.
  intros H. unfold tick.
  pose proof (JsOrder.num_le_not_nan_l _ _ H) as Nc.
  pose proof (JsOrder.num_le_not_nan_r _ _ H) as Nd.
  pose proof (add_finite_r (currentTime s) lit_0_1 Nc eq_refl) as Nn.
  destruct (duration s <=? currentTime s + lit_0_1) eqn:E; cbn.
  - split; [apply JsOrder.num_le_refl, Nd | reflexivity].
  - split; [|reflexivity].
    destruct (JsOrder.num_le_total _ _ Nd Nn) as [A|A]; [|exact A].
    unfold num_le in A. rewrite A in E. discriminate E.
Qed.


(** Playback never runs past the end.  From a player whose time is at
    most its duration, after any sequence of play, pause, timer ticks and
    seeks to times that are at most the duration, the time is still at
    most the duration, which has not changed; and a tick that reaches the
    end puts the time exactly on the duration and stops the playback. *)
Theorem playback_stays_before_end :
  (forall evs s,
     num_le (currentTime s) (duration s) ->
     Forall (seeksWithin (duration s)) evs ->
     num_le (currentTime (playerRun evs s)) (duration s) /\
     duration (playerRun evs s) = duration s) /\
  (forall s,
     num_le (currentTime s) (duration s) ->
     (duration s <=? currentTime s + lit_0_1) = true ->
     currentTime (tick s) = duration s /\ isPlaying (tick s) = false).
Proof.
  split.
  - intros evs. unfold playerRun.
    induction evs as [|ev evs IH]; intros s H F; [split; [exact H | reflexivity]|].
    inversion F as [|? ? F1 F2]; subst. cbn [fold_left].
    assert (K : num_le (currentTime (playerStep ev s)) (duration (playerStep ev s)) /\
                duration (playerStep ev s) = duration s).
    { destruct ev; cbn [playerStep].
      - split; [exact H | reflexivity].
      - split; [exact H | reflexivity].
      - split; [exact F1 | reflexivity].
      - destruct (isPlaying s); [apply tick_stays_before_end, H|].
        split; [exact H | reflexivity]. }
    destruct K as [K1 K2].
    destruct (IH (playerStep ev s) K1) as [I1 I2]; [rewrite K2; exact F2|].
    rewrite K2 in I1, I2. split; assumption.
  - intros s H E. unfold tick. rewrite E. cbn. split; reflexivity.
Qed.

Lemma playback_stays_before_end_witness :
  num_le (currentTime (playerRun [Play; Tick; Tick; Seek (of_Z 179); Tick; Tick; Tick]
                         initialPlayerState))
         (of_Z 180).
Proof.
  apply (proj1 playback_stays_before_end
           [Play; Tick; Tick; Seek (of_Z 179); Tick; Tick; Tick] initialPlayerState).
  - vm_compute. reflexivity.
  - repeat constructor.
Defined.

(* ------------------------------------------------------------------ *)
(** *** The speaker statistics *)

Lemma filter_none {A : Type} (f : A -> bool) (l : list A) :
  (forall x, In x l -> f x = false) -> filter f l = [].
Proof.
  induction l as [|a l IH]; intros H; [reflexivity|].
  cbn [filter]. rewrite (H a (or_introl eq_refl)). apply IH.
  intros x I. apply H. right. exact I.
Qed.

(** A speaker without segments has statistics that are all zero: the
    average confidence is [0 / 0], which is NaN, replaced by 0, and the
    words per minute are not computed.  For every speaker the average
    confidence is a number. *)
Theorem stats_of_silent_speaker :
  (forall segs sp,
     (forall seg, In seg segs ->
        String.eqb (speaker_id (speaker seg)) (speaker_id sp) = false) ->
     statsOf segs sp =
     {| speakerId := speaker_id sp; totalTime := lit_0; segmentCount := 0;
        averageConfidence := lit_0; wordsPerMinute := lit_0 |}) /\
  (forall segs sp, isNaN (averageConfidence (statsOf segs sp)) = false).
Proof.
  split.
  - intros segs sp H. unfold statsOf. rewrite (filter_none _ _ H). reflexivity.
  - intros segs sp. unfold statsOf. cbn [averageConfidence]. unfold orElse.
    match goal with |- context [truthyNumber ?x] => destruct x as [[]|[]| |[] m e] end;
      reflexivity.
Qed.




Lemma stats_of_silent_speaker_witness :
  statsOf [hostSegment] guest =
  {| speakerId := "guest"; totalTime := lit_0; segmentCount := 0;
     averageConfidence := lit_0; wordsPerMinute := lit_0 |}.
Proof.
  apply (proj1 stats_of_silent_speaker [hostSegment] guest).
  intros seg [<-|[]]. reflexivity.
Defined.

Lemma segmentCount_cons seg segs sp :
  segmentCount (statsOf (seg :: segs) sp) =
  ((if String.eqb (speaker_id (speaker seg)) (speaker_id sp) then 1 else 0)
   + segmentCount (statsOf segs sp))%nat.
Proof.
  unfold statsOf. cbn [segmentCount filter]. destruct (String.eqb _ _); reflexivity.
Qed.

Lemma list_sum_map_add {A : Type} (f g : A -> nat) (l : list A) :
  list_sum (map (fun x => (f x + g x)%nat) l) = (list_sum (map f l) + list_sum (map g l))%nat.
Proof.
  unfold list_sum. induction l as [|a l IH]; cbn [map fold_right]; lia.
Qed.

Lemma list_sum_cons (a : nat) (l : list nat) : list_sum (a :: l) = (a + list_sum l)%nat.
Proof. reflexivity. Qed.

Lemma matches_none sid (speakers : list Speaker) :
  ~ In sid (map speaker_id speakers) ->
  list_sum (map (fun sp => if String.eqb sid (speaker_id sp) then 1 else 0)%nat speakers) = 0%nat.
Proof.
  induction speakers as [|sp speakers IH]; intros H; [reflexivity|].
  cbn [map]. rewrite list_sum_cons. destruct (String.eqb sid (speaker_id sp)) eqn:E.
  - apply String.eqb_eq in E. exfalso. apply H. left. symmetry. exact E.
  - rewrite IH; [reflexivity|]. intros I. apply H. right. exact I.
Qed.

Lemma matches_one sid (speakers : list Speaker) :
  NoDup (map speaker_id speakers) -> In sid (map speaker_id speakers) ->
  list_sum (map (fun sp => if String.eqb sid (speaker_id sp) then 1 else 0)%nat speakers) = 1%nat.
Proof.
  induction speakers as [|sp speakers IH]; intros N I; [destruct I|].
  cbn [map] in N. inversion N as [|? ? NI N']; subst.
  cbn [map]. rewrite list_sum_cons. destruct (String.eqb sid (speaker_id sp)) eqn:E.
  - apply String.eqb_eq in E. subst sid. rewrite matches_none; [reflexivity | exact NI].
  - destruct I as [I|I]; [|rewrite IH; auto].
    subst sid. rewrite String.eqb_refl in E. discriminate E.
Qed.

Lemma segment_counts_add_up speakers segs :
  NoDup (map speaker_id speakers) ->
  Forall (fun seg => In (speaker_id (speaker seg)) (map speaker_id speakers)) segs ->
  list_sum (map segmentCount (speakerStats speakers segs)) = List.length segs.
Proof.
  intros N. unfold speakerStats. rewrite map_map.
  induction segs as [|seg segs IH]; intros F.
  - clear N F. induction speakers as [|sp speakers IHs]; [reflexivity|].
    cbn [map]. rewrite list_sum_cons, IHs. reflexivity.
  - inversion F as [|? ? F1 F2]; subst.
    rewrite (map_ext _ _ (segmentCount_cons seg segs)).
    rewrite list_sum_map_add, (matches_one _ _ N F1), (IH F2). reflexivity.
Qed.

(** Every segment is counted for exactly one speaker.  With speakers of
    distinct ids, and segments whose speakers are among them, there is
    one row of statistics per speaker, in the speakers' order, and the
    segment counts of the rows add up to the number of segments. *)
Theorem every_segment_counted_once :
  forall speakers segs,
    NoDup (map speaker_id speakers) ->
    Forall (fun seg => In (speaker_id (speaker seg)) (map speaker_id speakers)) segs ->
    map speakerId (speakerStats speakers segs) = map speaker_id speakers /\
    list_sum (map segmentCount (speakerStats speakers segs)) = List.length segs.
Proof.
  intros speakers segs N F. split; [|apply segment_counts_add_up; assumption].
  unfold speakerStats. rewrite map_map. apply map_ext. reflexivity.
Qed.

Lemma every_segment_counted_once_witness :
  map speakerId (speakerStats [host; guest] [hostSegment; setSpeaker guest hostSegment])
    = ["host"; "guest"]%string /\
  list_sum (map segmentCount
              (speakerStats [host; guest] [hostSegment; setSpeaker guest hostSegment]))
    = 2%nat.
Proof.
  apply (every_segment_counted_once [host; guest]
           [hostSegment; setSpeaker guest hostSegment]).
  - constructor; [cbn; intros [H|[]]; discriminate H|].
    constructor; [intros []|constructor].
  - constructor; [left; reflexivity|].
    constructor; [right; left; reflexivity | constructor].
Defined.

Lemma assign_keeps_ids_and_text sp segmentId (segs : list TranscriptSegment) :
  map id (map (fun seg => if String.eqb (id seg) segmentId then setSpeaker sp seg else seg)
              segs) = map id segs /\
  map text (map (fun seg => if String.eqb (id seg) segmentId then setSpeaker sp seg else seg)
                segs) = map text segs.
Proof.
  induction segs as [|seg segs [IH1 IH2]]; [split; reflexivity|].
  cbn [map]. rewrite IH1, IH2. destruct (String.eqb (id seg) segmentId); split; reflexivity.
Qed.

(** Assigning a speaker keeps the transcript and the statistics
    coherent.  The assignment changes neither the ids nor the text of the
    segments; with speakers of distinct ids, when every segment's speaker
    was one of the speakers it still is afterwards, so that the segment
    counts of the statistics still add up to the number of segments; and
    an unknown speaker id changes nothing. *)
Theorem speaker_assign_keeps_known_speakers :
  (forall speakers segmentId speakerId segs,
     NoDup (map speaker_id speakers) ->
     Forall (fun seg => In (speaker seg) speakers) segs ->
     map id (handleSpeakerAssign speakers segmentId speakerId segs) = map id segs /\
     map text (handleSpeakerAssign speakers segmentId speakerId segs) = map text segs /\
     Forall (fun seg => In (speaker seg) speakers)
            (handleSpeakerAssign speakers segmentId speakerId segs) /\
     list_sum (map segmentCount
                 (speakerStats speakers
                    (handleSpeakerAssign speakers segmentId speakerId segs)))
       = List.length segs) /\
  (forall speakers segmentId speakerId segs,
     ~ In speakerId (map speaker_id speakers) ->
     handleSpeakerAssign speakers segmentId speakerId segs = segs).
Proof.
  split.
  - intros speakers segmentId speakerId segs N F.
    assert (K : Forall (fun seg => In (speaker seg) speakers)
                       (handleSpeakerAssign speakers segmentId speakerId segs)).
    { unfold handleSpeakerAssign.
      destruct (find _ speakers) as [sp|] eqn:E; [|exact F].
      apply find_some in E. destruct E as [I _].
      induction F as [|seg segs' F1 F2 IH]; cbn [map]; constructor; [|exact IH].
      destruct (String.eqb (id seg) segmentId); [exact I | exact F1]. }
    assert (L : List.length (handleSpeakerAssign speakers segmentId speakerId segs)
                = List.length segs).
    { unfold handleSpeakerAssign. destruct (find _ speakers); [apply length_map | reflexivity]. }
    split; [|split; [|split]].
    + unfold handleSpeakerAssign. destruct (find _ speakers); [|reflexivity].
      apply assign_keeps_ids_and_text.
    + unfold handleSpeakerAssign. destruct (find _ speakers); [|reflexivity].
      apply assign_keeps_ids_and_text.
    + exact K.
    + rewrite <- L. apply segment_counts_add_up; [exact N|].
      eapply Forall_impl; [|exact K]. intros seg I. cbn beta in I. apply in_map, I.
  - intros speakers segmentId speakerId segs H. unfold handleSpeakerAssign.
    destruct (find _ speakers) as [sp|] eqn:E; [|reflexivity].
    apply find_some in E. destruct E as [I E]. apply String.eqb_eq in E.
    exfalso. apply H. rewrite <- E. apply in_map, I.
Qed.

Lemma speaker_assign_keeps_known_speakers_witness :
  map id (handleSpeakerAssign [host; guest] "1" "guest" [hostSegment]) = ["1"%string] /\
  map text (handleSpeakerAssign [host; guest] "1" "guest" [hostSegment])
    = ["Welcome to our podcast."%string] /\
  Forall (fun seg => In (speaker seg) [host; guest])
         (handleSpeakerAssign [host; guest] "1" "guest" [hostSegment]) /\
  list_sum (map segmentCount
              (speakerStats [host; guest]
                 (handleSpeakerAssign [host; guest] "1" "guest" [hostSegment])))
    = 1%nat.
Proof.
  apply (proj1 speaker_assign_keeps_known_speakers [host; guest] "1"%string "guest"%string
           [hostSegment]).
  - constructor; [cbn; intros [H|[]]; discriminate H|].
    constructor; [intros []|constructor].
  - constructor; [left; reflexivity | constructor].
Defined.

(* ------------------------------------------------------------------ *)
(** *** Editing a segment *)

Lemma map_edit_ids segmentId newText (segs : list TranscriptSegment) :
  map id (map (fun seg => if String.eqb (id seg) segmentId then setText newText seg else seg)
              segs) = map id segs.
Proof.
  induction segs as [|seg segs IH]; [reflexivity|].
  cbn [map]. rewrite IH. destruct (String.eqb (id seg) segmentId); reflexivity.
Qed.

Lemma map_edit_absent segmentId newText (segs : list TranscriptSegment) :
  findSegment segmentId segs = None ->
  map (fun seg => if String.eqb (id seg) segmentId then setText newText seg else seg) segs
  = segs.
Proof.
  unfold findSegment. induction segs as [|seg segs IH]; [reflexivity|].
  cbn [find map]. destruct (String.eqb (id seg) segmentId); [discriminate|].
  intros H. rewrite (IH H). reflexivity.
Qed.

Lemma setText_text seg : setText (text seg) seg = seg.
Proof. destruct seg; reflexivity. Qed.

Lemma setText_setText t t' seg : setText t (setText t' seg) = setText t seg.
Proof. reflexivity. Qed.

(** With distinct ids, editing the segment found and then editing it
    back to its old text restores the list. *)
Lemma map_edit_back segmentId newText (segs : list TranscriptSegment) : forall seg0,
  NoDup (map id segs) ->
  findSegment segmentId segs = Some seg0 ->
  map (fun seg => if String.eqb (id seg) segmentId then setText (text seg0) seg else seg)
      (map (fun seg => if String.eqb (id seg) segmentId then setText newText seg else seg)
           segs) = segs.
Proof.
  unfold findSegment. induction segs as [|seg segs IH]; intros seg0 N F; [reflexivity|].
  inversion N as [|? ? NI N']; subst. cbn [find map] in *.
  destruct (String.eqb (id seg) segmentId) eqn:E.
  - injection F as <-. cbn [id setText]. rewrite E, setText_setText, setText_text. f_equal.
    apply String.eqb_eq in E.
    assert (A : findSegment segmentId segs = None).
    { unfold findSegment. destruct (find _ segs) as [x|] eqn:Fx; [|reflexivity].
      apply find_some in Fx. destruct Fx as [Ix Ex]. apply String.eqb_eq in Ex.
      exfalso. apply NI. rewrite E, <- Ex. apply in_map, Ix. }
    rewrite (map_edit_absent segmentId newText segs A).
    apply map_edit_absent, A.
  - rewrite E. f_equal. apply IH; assumption.
Qed.

Lemma pushUndo_own_name stack segmentId undoAction :
  inherited segmentId = false ->
  pushUndo stack segmentId undoAction =
  Normal (match stack segmentId with Some actions => actions | None => [] end
          ++ [undoAction]).
Proof.
  intros H. unfold pushUndo. rewrite H. destruct (stack segmentId); reflexivity.
Qed.

(** An edit can be undone from its undo entry.  For an id that is not a
    property name of [Object.prototype], an edit keeps the segments'
    number, order and ids, marks the autosave as pending and pushes one
    undo entry onto the stack of the edited id, leaving the other stacks
    alone.  With distinct ids the entry holds what is needed to undo:
    editing the segment back to the recorded text restores the list of
    segments.  An edit of an id that no segment has changes no segment,
    and still pushes an entry, with no recorded text.  An edit of an id
    such as [constructor], when the stack has no entry under it, throws a
    [TypeError]. *)
Theorem segment_edit_is_undoable :
  (forall now segmentId newText ed,
     inherited segmentId = false ->
     exists ed',
       handleSegmentEdit now segmentId newText ed = Normal ed' /\
       map id (transcriptSegments ed') = map id (transcriptSegments ed) /\
       autosaveStatus ed' = pending /\
       undoStack ed' segmentId =
         Some (match undoStack ed segmentId with Some actions => actions | None => [] end
               ++ [{| timestamp := now;
                      originalText :=
                        option_map text (findSegment segmentId (transcriptSegments ed));
                      segmentId := segmentId |}]) /\
       (forall key, String.eqb key segmentId = false ->
          undoStack ed' key = undoStack ed key)) /\
  (forall now now' segmentId newText ed seg0,
     inherited segmentId = false ->
     NoDup (map id (transcriptSegments ed)) ->
     findSegment segmentId (transcriptSegments ed) = Some seg0 ->
     exists ed' ed'' actions,
       handleSegmentEdit now segmentId newText ed = Normal ed' /\
       undoStack ed' segmentId =
         Some (actions ++ [{| timestamp := now; originalText := Some (text seg0);
                              segmentId := segmentId |}]) /\
       handleSegmentEdit now' segmentId (text seg0) ed' = Normal ed'' /\
       transcriptSegments ed'' = transcriptSegments ed) /\
  (forall now segmentId newText ed,
     inherited segmentId = false ->
     findSegment segmentId (transcriptSegments ed) = None ->
     exists ed' actions,
       handleSegmentEdit now segmentId newText ed = Normal ed' /\
       transcriptSegments ed' = transcriptSegments ed /\
       undoStack ed' segmentId
         = Some (actions ++ [{| timestamp := now; originalText := None;
                                segmentId := segmentId |}])) /\
  (forall now segmentId newText ed,
     inherited segmentId = true -> undoStack ed segmentId = None ->
     handleSegmentEdit now segmentId newText ed = Throw "TypeError").
Proof.
  split; [|split; [|split]].
  - intros now segmentId newText ed H. unfold handleSegmentEdit.
    rewrite (pushUndo_own_name _ _ _ H). cbn [bind]. eexists. split; [reflexivity|].
    cbn [transcriptSegments autosaveStatus undoStack].
    split; [apply map_edit_ids|]. split; [reflexivity|].
    rewrite String.eqb_refl. split; [reflexivity|].
    intros key K. rewrite K. reflexivity.
  - intros now now' segmentId newText ed seg0 H N F. unfold handleSegmentEdit.
    rewrite !(pushUndo_own_name _ _ _ H). cbn [bind].
    do 3 eexists. split; [reflexivity|].
    cbn [transcriptSegments undoStack]. rewrite String.eqb_refl, F.
    split; [reflexivity|].
    rewrite !(pushUndo_own_name _ _ _ H). cbn [bind]. split; [reflexivity|].
    cbn [transcriptSegments]. apply map_edit_back; assumption.
  - intros now segmentId newText ed H F. unfold handleSegmentEdit.
    rewrite (pushUndo_own_name _ _ _ H). cbn [bind]. do 2 eexists.
    split; [reflexivity|]. cbn [transcriptSegments undoStack]. split.
    + apply map_edit_absent, F.
    + rewrite String.eqb_refl, F. reflexivity.
  - intros now segmentId newText ed H U. unfold handleSegmentEdit, pushUndo.
    rewrite U, H. reflexivity.
Qed.

Lemma segment_edit_is_undoable_witness :
  exists ed' ed'' actions,
    handleSegmentEdit (of_Z 1) "1" "Hello." oneSegmentEditor = Normal ed' /\
    undoStack ed' "1"%string =
      Some (actions ++ [{| timestamp := of_Z 1; originalText := Some (text hostSegment);
                           segmentId := "1" |}]) /\
    handleSegmentEdit (of_Z 2) "1" (text hostSegment) ed' = Normal ed'' /\
    transcriptSegments ed'' = [hostSegment].
Proof.
  apply (proj1 (proj2 segment_edit_is_undoable) (of_Z 1) (of_Z 2) "1"%string
           "Hello."%string oneSegmentEditor hostSegment).
  - reflexivity.
  - repeat constructor. intros [].
  - reflexivity.
Defined.

End AppFacts.

(* ================================================================== *)
(** ** Properties of the timeline *)

Module TimelineFacts.
Import JsNumber Dom Timeline.
Local Open Scope js_scope.



Lemma In_knownLevel levels z : In z levels -> knownLevel levels z = true.
Proof.
  intros I. unfold knownLevel. apply existsb_exists. exists z. split; [exact I|].
  destruct z as [[]|[]| |[] m e]; cbn; rewrite ?Pos.eqb_refl, ?Z.eqb_refl; reflexivity.
Qed.




(** A click on the timeline never seeks outside the recording.  With a
    duration that is not negative and a clicked time that is a number,
    the time passed to [onSeek] lies within [[0, duration]]; before the
    ruler is mounted the click does nothing. *)
Theorem timeline_click_seeks_within_duration :
  (forall duration e st rect,
     timelineRef st = Some rect ->
     num_le lit_0 duration ->
     isNaN (clickedTime duration rect e st) = false ->
     exists time,
       handleTimelineClick duration e st = Normal (Some time) /\
       within lit_0 duration time) /\
  (forall duration e st,
     timelineRef st = None -> handleTimelineClick duration e st = Normal None).
Proof.
  split.
  - intros duration e st rect R D N. unfold handleTimelineClick. rewrite R.
    cbn [truthy negb getBoundingClientRect bind]. eexists. split; [reflexivity|].
    split.
    + apply JsOrder.clamp_lower; [reflexivity| |exact N].
      exact (JsOrder.num_le_not_nan_r _ _ D).
    + apply JsOrder.clamp_upper; assumption.
  - intros duration e st R. unfold handleTimelineClick. rewrite R. reflexivity.
Qed.

Lemma timeline_click_seeks_within_duration_witness :
  exists time,
    handleTimelineClick (of_Z 180) {| clientX := of_Z 900 |}
      {| zoomLevel := lit_1_5; scrollPosition := lit_0;
         timelineRef := Some {| rect_left := of_Z 100; rect_width := of_Z 1000 |} |}
    = Normal (Some time) /\
    within lit_0 (of_Z 180) time.
Proof.
  apply (proj1 timeline_click_seeks_within_duration (of_Z 180) {| clientX := of_Z 900 |}
           {| zoomLevel := lit_1_5; scrollPosition := lit_0;
              timelineRef := Some {| rect_left := of_Z 100; rect_width := of_Z 1000 |} |}
           {| rect_left := of_Z 100; rect_width := of_Z 1000 |} eq_refl).
  - vm_compute. reflexivity.
  - vm_compute. reflexivity.
Defined.

Lemma not_ltb_le x y :
  isNaN x = false -> isNaN y = false -> ltb x y = false -> num_le y x.
Proof.
  intros Nx Ny H. destruct (JsOrder.num_le_total _ _ Nx Ny) as [A|A]; [|exact A].
  revert H A. unfold ltb, num_le, leb, SFltb, SFleb.
  destruct (SFcompare x y) as [[]|] eqn:E; try discriminate.
  intros _ _. apply JsOrder.compare_Eq_le in E. apply E.
Qed.

(** A segment's box stays inside its track.  Where the two percentages
    of a segment are numbers and the segment is drawn, its box starts
    between 0% and 100% and is no wider than what is left of the track to
    the right of its start. *)
Theorem segment_box_stays_in_track :
  forall duration st seg left width,
    isNaN (startPercent duration st seg) = false ->
    isNaN (widthPercent duration st seg) = false ->
    placeSegment duration st seg = Some (left, width) ->
    within lit_0 lit_100 left /\
    num_le width (lit_100 - left).
Proof.
  intros duration st seg left width Ns Nw. unfold placeSegment.
  destruct (ltb lit_100 (startPercent duration st seg)) eqn:E1; [discriminate|].
  cbn [orb]. destruct (ltb _ lit_0); [discriminate|].
  intros [= <- <-].
  pose proof (not_ltb_le lit_100 _ (eq_refl false) Ns E1) as L.
  set (sp := startPercent duration st seg) in *.
  assert (N0 : isNaN (Math_max lit_0 sp) = false)
    by (apply JsOrder.Math_max_not_nan; [reflexivity | exact Ns]).
  assert (Nr : isNaN (lit_100 - Math_max lit_0 sp) = false).
  { apply JsOrder.sub_finite; [reflexivity|].
    destruct (JsOrder.Math_max_cases lit_0 sp) as [[-> _]|[[-> A]|[_ [A|A]]]].
    - reflexivity.
    - clear - A L. destruct sp as [s|[]| |s m e]; try reflexivity;
        try (exfalso; revert A; vm_compute; discriminate);
        try (exfalso; revert L; vm_compute; discriminate).
    - discriminate.
    - rewrite Ns in A. discriminate. }
  split; [split|].
  - apply JsOrder.Math_max_ge_l; [reflexivity | exact Ns].
  - apply JsOrder.Math_max_lub; [reflexivity | exact L].
  - apply JsOrder.Math_min_le_r; assumption.
Qed.

Lemma segment_box_stays_in_track_witness :
  within lit_0 lit_100 lit_0 /\ num_le (of_Z 25) (lit_100 - lit_0).
Proof.
  apply (segment_box_stays_in_track (of_Z 180) mount
           {| seg_start := lit_0; seg_end := of_Z 45 |} lit_0 (of_Z 25)).
  - vm_compute. reflexivity.
  - vm_compute. reflexivity.
  - vm_compute. reflexivity.
Defined.

End TimelineFacts.
